(** * Faculty travel survey dashboard: the data pipeline of [dashboard.py]

    The script reads one CSV into a pandas [DataFrame] and derives, top to
    bottom, the headline percentages, two frequency tables, a row-normalised
    cross-tabulation and two lists of free-text reasons.  This development
    embeds that pipeline: Python's [str] methods in [PyStr], the pandas
    operations the script calls in [Pandas], and the script itself, one
    definition per script variable, in [Dashboard].

    Modelling choices.
    - A [str] is a [string] of 8-bit characters; case mapping and white space
      follow Python on the ASCII range, characters above 127 are uncased and
      are not white space.
    - A cell of a column is [option string]: [None] is pandas' missing value
      (NaN), as [read_csv] produces for an empty field.
    - A Python float is a [num]: an exact rational, an infinity or
      not-a-number.  Rounding is not modelled; what a division by zero
      produces is.
    - [df[c]] raises [KeyError] for an absent column, [df.get(c)] returns
      [None]; the first is a [result], the second an [option]. *)

From Stdlib Require Import String Ascii List Bool Arith ZArith Lia QArith
  Permutation Sorted.
Import ListNotations.
Open Scope string_scope.
Open Scope nat_scope.

(** ** Python [str] methods *)

Module PyStr.

Definition is_upper (c : ascii) : bool :=
  (65 <=? nat_of_ascii c) && (nat_of_ascii c <=? 90).

Definition is_lower (c : ascii) : bool :=
  (97 <=? nat_of_ascii c) && (nat_of_ascii c <=? 122).

Definition lower_char (c : ascii) : ascii :=
  if is_upper c then ascii_of_nat (nat_of_ascii c + 32) else c.

Definition upper_char (c : ascii) : ascii :=
  if is_lower c then ascii_of_nat (nat_of_ascii c - 32) else c.

(** [str.isspace] on one character: TAB, LF, VT, FF, CR, the four
    separators FS, GS, RS, US, and the space. *)
Definition is_space (c : ascii) : bool :=
  let n := nat_of_ascii c in
  ((9 <=? n) && (n <=? 13)) || ((28 <=? n) && (n <=? 32)).

(** [s.lower()] *)
Fixpoint lower (s : string) : string :=
  match s with
  | EmptyString => EmptyString
  | String c r => String (lower_char c) (lower r)
  end.

(** [s.startswith(p)] *)
Fixpoint startswith (p s : string) : bool :=
  match p, s with
  | EmptyString, _ => true
  | String _ _, EmptyString => false
  | String a p', String b s' => Ascii.eqb a b && startswith p' s'
  end.

(** [kw in s], which is what [Series.str.contains(kw)] computes for a
    pattern without regular-expression metacharacters. *)
Fixpoint contains (kw s : string) : bool :=
  startswith kw s ||
  match s with
  | EmptyString => false
  | String _ r => contains kw r
  end.

(** [s.replace(old, new)] for one-character [old] and [new]. *)
Fixpoint replace (old new : ascii) (s : string) : string :=
  match s with
  | EmptyString => EmptyString
  | String c r =>
      String (if Ascii.eqb c old then new else c) (replace old new r)
  end.

(** [s.split(sep)] for a one-character separator: never the empty list,
    [''.split(',')] is [['']]. *)
Fixpoint split (sep : ascii) (s : string) : list string :=
  match s with
  | EmptyString => [EmptyString]
  | String c r =>
      if Ascii.eqb c sep then EmptyString :: split sep r
      else match split sep r with
           | [] => [String c EmptyString]
           | p :: ps => String c p :: ps
           end
  end.

Fixpoint lstrip (s : string) : string :=
  match s with
  | EmptyString => EmptyString
  | String c r => if is_space c then lstrip r else s
  end.

Fixpoint rstrip (s : string) : string :=
  match s with
  | EmptyString => EmptyString
  | String c r =>
      match rstrip r with
      | EmptyString => if is_space c then EmptyString else String c EmptyString
      | r' => String c r'
      end
  end.

(** [s.strip()] *)
Definition strip (s : string) : string := rstrip (lstrip s).

(** [s.title()]: a cased character is upper-cased after an uncased one (or
    at the start) and lower-cased after a cased one. *)
Fixpoint title_from (previous_is_cased : bool) (s : string) : string :=
  match s with
  | EmptyString => EmptyString
  | String c r =>
      if is_lower c then
        String (if previous_is_cased then c else upper_char c)
               (title_from true r)
      else if is_upper c then
        String (if previous_is_cased then lower_char c else c)
               (title_from true r)
      else String c (title_from false r)
  end.

Definition title (s : string) : string := title_from false s.

(** Truth value of a [str]: the empty string is falsy. *)
Definition truthy (s : string) : bool :=
  match s with EmptyString => false | String _ _ => true end.

(** [sep.join(parts)] *)
Fixpoint join (sep : ascii) (parts : list string) : string :=
  match parts with
  | [] => EmptyString
  | [p] => p
  | p :: ps => p ++ String sep (join sep ps)
  end.

(** [c in s] for one character. *)
Fixpoint mem_char (c : ascii) (s : string) : bool :=
  match s with
  | EmptyString => false
  | String a r => Ascii.eqb a c || mem_char c r
  end.

(** [kw] occurs in [s] as a contiguous substring. *)
Definition Substring (kw s : string) : Prop :=
  exists pre post, s = pre ++ kw ++ post.

(** One step of [title_from]: the character written for [c] and whether
    [c] is cased. *)
Definition title_char (previous_is_cased : bool) (c : ascii) : ascii :=
  if is_lower c then (if previous_is_cased then c else upper_char c)
  else if is_upper c then (if previous_is_cased then lower_char c else c)
  else c.

Definition is_cased (c : ascii) : bool := is_lower c || is_upper c.

(** A character is one of the three separators of a reason cell. *)
Definition is_delimiter (c : ascii) : bool :=
  Ascii.eqb c "," || Ascii.eqb c "/" || Ascii.eqb c ";".

(** [any(is_delimiter(c) for c in s)] *)
Fixpoint has_delimiter (s : string) : bool :=
  match s with
  | EmptyString => false
  | String c r => is_delimiter c || has_delimiter r
  end.

(** [s.isascii()] *)
Fixpoint is_ascii (s : string) : bool :=
  match s with
  | EmptyString => true
  | String c r => (nat_of_ascii c <? 128) && is_ascii r
  end.

End PyStr.

(** ** The pandas operations the script calls *)

Module Pandas.

(** A cell read from the CSV: [None] is the missing value (NaN). *)
Definition cell : Type := option string.

Definition Series : Type := list cell.

Definition cell_dec (x y : cell) : {x = y} + {x <> y}.
Proof. decide equality. apply string_dec. Defined.

(** Number of missing cells of a column. *)
Definition missing (s : Series) : nat := count_occ cell_dec s None.

(** A frame as [read_csv] builds it: the header, then the data rows.  A
    row shorter than the header is padded with missing values. *)
Record DataFrame : Type := mkDataFrame {
  columns : list string;
  rows : list (list cell)
}.

Inductive exn : Type :=
| KeyError (key : string).

Inductive result (A : Type) : Type :=
| Ok (a : A)
| Raise (e : exn).

Arguments Ok {A} a.
Arguments Raise {A} e.

Definition bind {A B : Type} (r : result A) (k : A -> result B) : result B :=
  match r with
  | Ok a => k a
  | Raise e => Raise e
  end.

Notation "x <- r ;; k" := (bind r (fun x => k))
  (at level 61, r at next level, right associativity).

(** [len(df)] *)
Definition len (df : DataFrame) : nat := length (rows df).

Fixpoint position (c : string) (names : list string) : option nat :=
  match names with
  | [] => None
  | n :: ns =>
      if String.eqb c n then Some 0
      else option_map S (position c ns)
  end.

Definition column_at (j : nat) (df : DataFrame) : Series :=
  map (fun r => nth j r None) (rows df).

(** [df.get(c)]: [None] when the frame has no such column. *)
Definition get (df : DataFrame) (c : string) : option Series :=
  option_map (fun j => column_at j df) (position c (columns df)).

(** [df[c]]: raises [KeyError] when the frame has no such column. *)
Definition getitem (df : DataFrame) (c : string) : result Series :=
  match get df c with
  | Some s => Ok s
  | None => Raise (KeyError c)
  end.

(** [s.fillna(v)] *)
Definition fillna (v : string) (s : Series) : Series :=
  map (fun c => match c with None => Some v | Some x => Some x end) s.

(** [s.dropna()] *)
Definition dropna (s : Series) : Series :=
  filter (fun c => match c with None => false | Some _ => true end) s.

(** [s.astype(str)]: a string is kept, the missing value prints as
    ["nan"]. *)
Definition astype_str (s : Series) : list string :=
  map (fun c => match c with None => "nan" | Some x => x end) s.

(** [s.str.lower()] and [s.str.contains(kw)] on a column of strings. *)
Definition str_lower (s : list string) : list string := map PyStr.lower s.

Definition str_contains (kw : string) (s : list string) : list bool :=
  map (PyStr.contains kw) s.

(** [s.isin(values)] *)
Definition isin (values : list string) (s : list string) : list bool :=
  map (fun v => existsb (String.eqb v) values) s.

(** [a | b] on two aligned boolean columns. *)
Fixpoint mask_or (a b : list bool) : list bool :=
  match a, b with
  | x :: a', y :: b' => (x || y) :: mask_or a' b'
  | _, _ => []
  end.

(** [mask.sum()] *)
Definition mask_sum (mask : list bool) : nat := count_occ bool_dec mask true.

(** *** Floats *)

Inductive num : Type :=
| Fin (q : Q)
| Inf
| NaN.

Definition of_nat (n : nat) : Q := inject_Z (Z.of_nat n).

(** [a / b] on numpy integers: a zero divisor gives an infinity, or
    not-a-number for [0 / 0], and does not raise. *)
Definition np_div (a b : nat) : num :=
  match b, a with
  | O, O => NaN
  | O, S _ => Inf
  | S _, _ => Fin (of_nat a / of_nat b)
  end.

(** [x * k] for a positive finite [k]. *)
Definition num_mul (x : num) (k : Q) : num :=
  match x with
  | Fin q => Fin (q * k)
  | Inf => Inf
  | NaN => NaN
  end.

Definition num_add (x y : num) : num :=
  match x, y with
  | Fin p, Fin q => Fin (p + q)
  | NaN, _ | _, NaN => NaN
  | _, _ => Inf
  end.

Definition is_finite (x : num) : bool :=
  match x with Fin _ => true | _ => false end.

Definition is_nan (x : num) : bool :=
  match x with NaN => true | _ => false end.

(** *** Sorting *)

Section Sort.
Context {A : Type} (before : A -> A -> bool).

Fixpoint insert (x : A) (l : list A) : list A :=
  match l with
  | [] => [x]
  | y :: t => if before x y then x :: l else y :: insert x t
  end.

Definition sort (l : list A) : list A := fold_right insert [] l.
End Sort.

(** *** [value_counts] *)

Definition freq : Type := list (string * nat).

Fixpoint bump (k : string) (tbl : freq) : freq :=
  match tbl with
  | [] => [(k, 1)]
  | (k', n) :: t =>
      if String.eqb k k' then (k', S n) :: t else (k', n) :: bump k t
  end.

(** The hash-table pass: one bucket per distinct value, in the order of
    first occurrence; missing values are skipped ([dropna=True]). *)
Definition tally_step (tbl : freq) (c : cell) : freq :=
  match c with None => tbl | Some k => bump k tbl end.

Definition tally (s : Series) : freq := fold_left tally_step s [].

(** [s.value_counts()]: the tally sorted by descending count.  Buckets of
    equal count stay in order of first occurrence here; no result below
    depends on the order among equal counts. *)
Definition value_counts (s : Series) : freq :=
  sort (fun x y => snd y <=? snd x) (tally s).

Fixpoint lookup (k : string) (tbl : freq) : option nat :=
  match tbl with
  | [] => None
  | (k', n) :: t => if String.eqb k k' then Some n else lookup k t
  end.

Definition total_count (tbl : freq) : nat := list_sum (map snd tbl).

(** The count a table holds for a label, zero when the label has no
    bucket. *)
Definition count_of (k : string) (tbl : freq) : nat :=
  match lookup k tbl with Some n => n | None => 0 end.

(** *** [crosstab] *)

Record CrossTab (V : Type) : Type := mkCrossTab {
  ct_index : list string;
  ct_columns : list string;
  ct_values : list (list V)
}.

Arguments mkCrossTab {V} _ _ _.
Arguments ct_index {V} _.
Arguments ct_columns {V} _.
Arguments ct_values {V} _.

(** The observations of two aligned columns: the rows where neither is
    missing. *)
Fixpoint observations (a b : Series) : list (string * string) :=
  match a, b with
  | Some x :: a', Some y :: b' => (x, y) :: observations a' b'
  | _ :: a', _ :: b' => observations a' b'
  | _, _ => []
  end.

(** Labels of an axis: the distinct values, sorted. *)
Definition labels (l : list string) : list string :=
  sort String.leb (nodup string_dec l).

(** Indicator of a label: 1 at the label itself, 0 elsewhere. *)
Definition hit (x c : string) : nat := if String.eqb x c then 1 else 0.

Definition count_pair (r c : string) (obs : list (string * string)) : nat :=
  length (filter (fun p => String.eqb (fst p) r && String.eqb (snd p) c) obs).

(** The counts of one row of a cross-tabulation. *)
Definition cells_of (obs : list (string * string)) (cols : list string)
           (r : string) : list nat :=
  map (fun c => count_pair r c obs) cols.

(** [pd.crosstab(a, b)]: one row per value of [a] that occurs, one column
    per value of [b] that occurs, each cell the number of rows holding that
    pair. *)
Definition crosstab (a b : Series) : CrossTab nat :=
  let obs := observations a b in
  let idx := labels (map fst obs) in
  let cols := labels (map snd obs) in
  mkCrossTab idx cols
    (map (fun r => map (fun c => count_pair r c obs) cols) idx).

(** [ct.sum(axis=1)] *)
Definition sum_axis1 (ct : CrossTab nat) : list nat :=
  map (fun row => list_sum row) (ct_values ct).

(** [ct.div(d, axis=0)]: row [i] divided by [d[i]]. *)
Fixpoint div_rows (vals : list (list nat)) (d : list nat) : list (list num) :=
  match vals, d with
  | row :: vals', di :: d' => map (fun v => np_div v di) row :: div_rows vals' d'
  | row :: vals', [] => map (fun _ => NaN) row :: div_rows vals' []
  | [], _ => []
  end.

Definition div_axis0 (ct : CrossTab nat) (d : list nat) : CrossTab num :=
  mkCrossTab (ct_index ct) (ct_columns ct) (div_rows (ct_values ct) d).

(** [frame * k] *)
Definition mul_scalar (ct : CrossTab num) (k : Q) : CrossTab num :=
  mkCrossTab (ct_index ct) (ct_columns ct)
    (map (fun row => map (fun v => num_mul v k) row) (ct_values ct)).

Definition num_sum (l : list num) : num := fold_right num_add (Fin 0) l.

(** A frequency table in the shape [value_counts] returns it: counts in
    descending order, one bucket per label, no empty bucket. *)
Definition ranked (tbl : freq) : Prop :=
  StronglySorted (fun a b => snd b <= snd a) tbl
  /\ NoDup (map fst tbl)
  /\ Forall (fun kn => 1 <= snd kn) tbl.

(** [frame.head(n)] *)
Definition head (n : nat) (tbl : freq) : freq := firstn n tbl.

(** [frame.empty] *)
Definition empty (tbl : freq) : bool :=
  match tbl with [] => true | _ :: _ => false end.

(** [s.nunique()] on a column of strings. *)
Definition nunique (l : list string) : nat := length (nodup string_dec l).

(** The rows a frequency table holds under the labels that satisfy [f]. *)
Definition counted (f : string -> bool) (tbl : freq) : nat :=
  list_sum (map snd (filter (fun kn => f (fst kn)) tbl)).

(** [frame[col]] on a cross-tabulation: the cells under one column
    label. *)
Definition ct_getitem {V : Type} (d : V) (p : CrossTab V) (col : string)
  : list V :=
  match position col (ct_columns p) with
  | Some j => map (fun row => nth j row d) (ct_values p)
  | None => []
  end.

(** [frame.values.sum()] *)
Definition grand_total (c : CrossTab nat) : nat :=
  list_sum (map (fun row => list_sum row) (ct_values c)).

(** A column whose cells, where present, are ASCII text. *)
Definition ascii_column (s : Series) : Prop :=
  Forall (fun c => match c with
                   | Some x => PyStr.is_ascii x = true
                   | None => True
                   end) s.

End Pandas.

(** ** The script *)

Module Dashboard.
Import Pandas.

(** Lines 30-39: the headline figures. *)

Definition total_responses (df : DataFrame) : nat := len df.

Definition travel_mode_lower (df : DataFrame) : result (list string) :=
  col <- getitem df "Travel Mode" ;;
  Ok (str_lower (astype_str (fillna "" col))).

Definition private_mask (df : DataFrame) : result (list bool) :=
  tml <- travel_mode_lower df ;;
  Ok (mask_or (mask_or (str_contains "own car" tml)
                       (str_contains "personal" tml))
              (str_contains "bike" tml)).

(** [(mask.sum() / total_responses * 100) if total_responses else 0], the
    expression of lines 33, 36 and 39. *)
Definition pct (mask : list bool) (total_responses : nat) : num :=
  if Nat.eqb total_responses 0 then Fin 0
  else num_mul (np_div (mask_sum mask) total_responses) 100.

Definition pct_private (df : DataFrame) : result num :=
  mask <- private_mask df ;;
  Ok (pct mask (total_responses df)).

Definition carpool_lower (df : DataFrame) : result (list string) :=
  col <- getitem df "Carpool Willingness" ;;
  Ok (str_lower (astype_str (fillna "" col))).

Definition open_to_carpool_mask (df : DataFrame) : result (list bool) :=
  cl <- carpool_lower df ;;
  Ok (isin ["yes"; "maybe"] cl).

Definition pct_open_carpool (df : DataFrame) : result num :=
  mask <- open_to_carpool_mask df ;;
  Ok (pct mask (total_responses df)).

Definition cab_issue_lower (df : DataFrame) : result (list string) :=
  col <- getitem df "Cab Availability Issues" ;;
  Ok (str_lower (astype_str (fillna "" col))).

Definition cab_issue_mask (df : DataFrame) : result (list bool) :=
  cl <- cab_issue_lower df ;;
  Ok (isin ["yes"; "sometimes"] cl).

Definition pct_cab_issues (df : DataFrame) : result num :=
  mask <- cab_issue_mask df ;;
  Ok (pct mask (total_responses df)).

(** Line 48. *)
Definition mode_counts (df : DataFrame) : result freq :=
  col <- getitem df "Travel Mode" ;;
  Ok (value_counts (fillna "(Missing)" col)).

(** Lines 56-59. *)
Definition ct (df : DataFrame) : result (CrossTab nat) :=
  tm <- getitem df "Travel Mode" ;;
  ca <- getitem df "Cab Availability Issues" ;;
  Ok (crosstab (fillna "(Missing)" tm) (fillna "(Missing)" ca)).

Definition ct_pct (df : DataFrame) : result (CrossTab num) :=
  c <- ct df ;;
  Ok (mul_scalar (div_axis0 c (sum_axis1 c)) 100).

(** Line 70. *)
Definition pool_counts (df : DataFrame) : result freq :=
  col <- getitem df "Carpool Willingness" ;;
  Ok (value_counts (fillna "(Missing)" col)).

(** Lines 79-85.  The loop body, then the loop over the cells that are
    not missing, extending [all_reasons]. *)
Definition parts_of (item : string) : list string :=
  let item := PyStr.replace ";" "," (PyStr.replace "/" "," item) in
  flat_map (fun p => if PyStr.truthy (PyStr.strip p) then [PyStr.strip p] else [])
           (PyStr.split "," item).

Definition split_reasons (texts : Series) : list string :=
  fold_left (fun all_reasons item => (all_reasons ++ parts_of item)%list)
            (astype_str (dropna texts)) [].

(** Lines 87-90 and 102-105: each block reads one optional column. *)
Definition reasons_list_of (column : string) (df : DataFrame) : list string :=
  match get df column with
  | Some reasons_series => split_reasons reasons_series
  | None => []
  end.

Definition reasons_df_of (column : string) (df : DataFrame) : freq :=
  value_counts (map (fun r => Some (PyStr.title r)) (reasons_list_of column df)).

Definition reasons_list : DataFrame -> list string :=
  reasons_list_of "Reason for not using Ola/Uber/Rapido frequently".

Definition reasons_df : DataFrame -> freq :=
  reasons_df_of "Reason for not using Ola/Uber/Rapido frequently".

Definition reasons_carpool_list : DataFrame -> list string :=
  reasons_list_of "Reason for not preferring carpooling".

Definition reasons_carpool_df : DataFrame -> freq :=
  reasons_df_of "Reason for not preferring carpooling".

(** What the chain [fillna('').astype(str).str.lower()] of lines 31, 34
    and 37 leaves in a row: the cell lower-cased, the empty string for a
    missing one. *)
Definition lowered (c : cell) : string :=
  PyStr.lower (match c with None => "" | Some x => x end).

(** Row by row, the three masks of lines 32, 35 and 38. *)
Definition is_private (c : cell) : bool :=
  PyStr.contains "own car" (lowered c)
  || PyStr.contains "personal" (lowered c)
  || PyStr.contains "bike" (lowered c).

Definition is_open (c : cell) : bool :=
  existsb (String.eqb (lowered c)) ["yes"; "maybe"].

Definition is_issue (c : cell) : bool :=
  existsb (String.eqb (lowered c)) ["yes"; "sometimes"].

(** The value lines 48, 56 and 70 count a row under. *)
Definition displayed (c : cell) : string :=
  match c with None => "(Missing)" | Some x => x end.

(** The title-cased reasons that line 89 counts, as a function of the
    column. *)
Definition reason_tokens (texts : Series) : list string :=
  map PyStr.title (split_reasons texts).

(** Lines 15-18: what [load_data] does to the frame [read_csv] returns;
    the header names are stripped, the cells are left as read. *)
Definition load_data (parsed : DataFrame) : DataFrame :=
  mkDataFrame (map PyStr.strip (columns parsed)) (rows parsed).

(** Lines 61-63: one bar trace per column of [ct_pct], over the same
    travel modes. *)
Record trace : Type := mkTrace {
  trace_name : string;
  trace_x : list string;
  trace_y : list num
}.

Definition fig2_traces (p : CrossTab num) : list trace :=
  map (fun col => mkTrace col (ct_index p) (ct_getitem NaN p col))
      (ct_columns p).

Definition fig2 (df : DataFrame) : result (list trace) :=
  p <- ct_pct df ;;
  Ok (fig2_traces p).

(** What a section of the page shows: a chart over a table, or a note. *)
Inductive widget : Type :=
| BarChart (data : freq)
| Treemap (data : freq)
| Info (message : string).

(** Lines 92-96. *)
Definition section4 (df : DataFrame) : widget :=
  if negb (empty (reasons_df df)) then BarChart (head 15 (reasons_df df))
  else Info "No reasons recorded for not using Ola/Uber/Rapido frequently.".

(** Lines 108-121.  The counts are integers already, so the coercion of
    line 109 leaves them as they are.  [treemap_raises] tells whether
    drawing the treemap of a table raises; the handler of line 117 then
    draws the bar chart. *)
Definition section5 (treemap_raises : freq -> bool) (df : DataFrame) : widget :=
  let reasons_carpool_df := reasons_carpool_df df in
  if negb (empty reasons_carpool_df) then
    if 2 <=? nunique (map fst reasons_carpool_df) then
      if treemap_raises (head 50 reasons_carpool_df)
      then BarChart (head 50 reasons_carpool_df)
      else Treemap (head 50 reasons_carpool_df)
    else BarChart (head 50 reasons_carpool_df)
  else Info "No reasons recorded for not preferring carpooling.".

(** A reason as [split_reasons] emits it: not empty, without white space
    at either end, without a separator. *)
Definition clean_reason (t : string) : Prop :=
  t <> "" /\ PyStr.strip t = t /\ PyStr.has_delimiter t = false.

End Dashboard.

(** ** The specification's wording, for comparison with the script *)

Module Spec.
Import Pandas.

(** Match-normalised value as the glossary has it: lower-cased,
    whitespace-trimmed, missing replaced by the empty string. *)
Definition match_normalized (c : cell) : string :=
  match c with
  | None => ""
  | Some x => PyStr.strip (PyStr.lower x)
  end.

Definition delimiter_to_comma (c : ascii) : ascii :=
  if (Ascii.eqb c "/" || Ascii.eqb c ";")%bool then ","%char else c.

Fixpoint map_chars (f : ascii -> ascii) (s : string) : string :=
  match s with
  | EmptyString => EmptyString
  | String c r => String (f c) (map_chars f r)
  end.

(** One cell of the tokenizer: replace [/] and [;] by [,], split on [,],
    trim each piece, discard the empty ones, title-case the rest.  A
    missing cell contributes nothing. *)
Definition tokens_of_cell (c : cell) : list string :=
  match c with
  | None => []
  | Some x =>
      map PyStr.title
        (filter PyStr.truthy
           (map PyStr.strip
              (PyStr.split "," (map_chars delimiter_to_comma x))))
  end.

(** [tokenize_reasons]: the tokens of every cell, in row order and, within
    a row, in split order. *)
Definition tokenize_reasons (s : Series) : list string :=
  flat_map tokens_of_cell s.

(** The open-to-carpool rule on the glossary's match-normalised value. *)
Definition open_to_carpool (c : cell) : bool :=
  existsb (String.eqb (match_normalized c)) ["yes"; "maybe"].

(** A percentage: a finite number between 0 and 100. *)
Definition percentage (x : num) : Prop :=
  match x with
  | Fin q => (0 <= q)%Q /\ (q <= 100)%Q
  | _ => False
  end.

(** A missing cell is a false row of the mask and still a row of the
    total: the mask is aligned with the column, false wherever the cell is
    missing, and the figure [p] is the number of true rows over [total],
    the missing rows included, times 100. *)
Definition missing_counts_against (col : Series) (mask : list bool)
           (p : num) (total : nat) : Prop :=
  length col = total
  /\ length mask = total
  /\ (forall i, nth_error col i = Some None -> nth_error mask i = Some false)
  /\ mask_sum mask + missing col <= total
  /\ exists q, p = Fin q
               /\ (q * of_nat total == 100 * of_nat (mask_sum mask))%Q.

End Spec.

(** ** Sample tables *)

Module Samples.
Import Pandas.

(** A frame whose rows carry the three required columns, in this order. *)
Definition survey (rows : list (list cell)) : DataFrame :=
  mkDataFrame ["Travel Mode"; "Carpool Willingness"; "Cab Availability Issues"]
              rows.

(** The travel modes [Own Car], [Ola/Uber], [Bike]. *)
Definition three_modes : DataFrame :=
  survey [ [Some "Own Car"; Some "Yes"; Some "No"];
           [Some "Ola/Uber"; Some "No"; Some "Yes"];
           [Some "Bike"; Some "Maybe"; Some "Sometimes"] ].

(** The carpool answers [Yes], [No], [Maybe], [yes]. *)
Definition four_answers : DataFrame :=
  survey [ [Some "Own Car"; Some "Yes"; Some "No"];
           [Some "Bus"; Some "No"; Some "No"];
           [Some "Bike"; Some "Maybe"; Some "Yes"];
           [Some "Carpool"; Some "yes"; Some "No"] ].

(** One answer [Yes] padded with a space on both sides. *)
Definition padded_yes : DataFrame :=
  survey [ [Some "Own Car"; Some " Yes "; Some "No"] ].

(** A header and no data row. *)
Definition no_rows : DataFrame := survey [].

(** A row whose three answers are all missing, between two complete ones. *)
Definition with_missing : DataFrame :=
  survey [ [Some "Own Car"; Some "Yes"; Some "Sometimes"];
           [None; None; None];
           [Some "Bike"; Some "Maybe"; Some "No"] ].

(** Three rows that also answer the two optional questions. *)
Definition with_reasons : DataFrame :=
  mkDataFrame
    ["Travel Mode"; "Carpool Willingness"; "Cab Availability Issues";
     "Reason for not using Ola/Uber/Rapido frequently";
     "Reason for not preferring carpooling"]
    [ [Some "Own Car"; Some "No"; Some "No";
       Some "High Cost/Safety Concerns; Inconvenient"; Some "Inflexible schedule"];
      [Some "Bike"; Some "Maybe"; Some "Sometimes";
       Some "high cost, availability"; None];
      [Some "Ola/Uber"; Some "Yes"; Some "Yes";
       None; Some "Safety; inflexible SCHEDULE"] ].

(** A frame as [read_csv] returns it when the header cells carry white
    space around the names. *)
Definition padded_header : DataFrame :=
  mkDataFrame [" Travel Mode"; "Carpool Willingness  "; " Cab Availability Issues "]
              [ [Some "Own Car"; Some "Yes"; Some "No"];
                [Some "Bike"; Some " Maybe"; None] ].

End Samples.

(** ** Facts about the [str] methods *)

Module PyStrFacts.
Import PyStr.

Lemma startswith_iff (p s : string) :
  startswith p s = true <-> exists post, s = p ++ post.
Proof.
  revert s; induction p as [|a p IH]; intros s; simpl.
  - split; [intros _; now exists s | reflexivity].
  - destruct s as [|b s].
    + split; [discriminate | intros [post H]; discriminate].
    + rewrite andb_true_iff, Ascii.eqb_eq, IH. split.
      * intros [-> [post ->]]. now exists post.
      * intros [post H]. injection H as -> ->. split; [reflexivity | now exists post].
Qed.

Lemma contains_iff (kw s : string) :
  contains kw s = true <-> Substring kw s.
Proof.
  unfold Substring. induction s as [|c s IH].
  - simpl. rewrite orb_false_r, startswith_iff. split.
    + intros [post H]. now exists EmptyString, post.
    + intros [pre [post H]]. destruct pre; simpl in H.
      * now exists post.
      * discriminate.
  - cbn [contains]. rewrite orb_true_iff, startswith_iff, IH. split.
    + intros [[post H] | [pre [post H]]].
      * now exists EmptyString, post.
      * exists (String c pre), post. simpl. now rewrite H.
    + intros [pre [post H]]. destruct pre as [|a pre]; simpl in H.
      * left. now exists post.
      * right. injection H as _ H. now exists pre, post.
Qed.

Lemma split_not_nil (sep : ascii) (s : string) : split sep s <> [].
Proof.
  destruct s as [|c r]; simpl; [discriminate|].
  destruct (Ascii.eqb c sep); [discriminate|].
  destruct (split sep r); discriminate.
Qed.

(** Splitting loses nothing: joining the pieces with the separator gives
    the string back. *)
Lemma join_split (sep : ascii) (s : string) : join sep (split sep s) = s.
Proof.
  induction s as [|c r IH]; [reflexivity|].
  simpl. destruct (Ascii.eqb_spec c sep) as [->|Hc].
  - pose proof (split_not_nil sep r) as Hne.
    destruct (split sep r) as [|p ps] eqn:E; [contradiction|].
    change (join sep (EmptyString :: p :: ps))
      with (String sep (join sep (p :: ps))).
    now rewrite IH.
  - pose proof (split_not_nil sep r) as Hne.
    destruct (split sep r) as [|p ps] eqn:E; [contradiction|].
    destruct ps as [|p' ps]; simpl in *; now f_equal.
Qed.

(** No piece of a split holds the separator. *)
Lemma split_pieces_clean (sep : ascii) (s : string) :
  Forall (fun p => mem_char sep p = false) (split sep s).
Proof.
  induction s as [|c r IH]; simpl.
  - repeat constructor.
  - destruct (Ascii.eqb_spec c sep) as [->|Hc].
    + constructor; [reflexivity | exact IH].
    + destruct (split sep r) as [|p ps]; [repeat constructor; simpl|].
      * apply orb_false_iff; split; [now apply Ascii.eqb_neq | reflexivity].
      * inversion IH as [|? ? Hp Hps]; subst. constructor; [|exact Hps].
        simpl. apply orb_false_iff; split; [now apply Ascii.eqb_neq | exact Hp].
Qed.

Lemma split_without_sep (sep : ascii) (s : string) :
  mem_char sep s = false -> split sep s = [s].
Proof.
  induction s as [|c r IH]; simpl; [reflexivity|].
  intros H. apply orb_false_iff in H as [Hc Hr].
  rewrite Hc, (IH Hr). reflexivity.
Qed.

Lemma replace_without_old (old new : ascii) (s : string) :
  mem_char old s = false -> replace old new s = s.
Proof.
  induction s as [|c r IH]; simpl; [reflexivity|].
  intros H. apply orb_false_iff in H as [Hc Hr].
  now rewrite Hc, (IH Hr).
Qed.

(** The two replacements of line 82 are one pass that sends [/] and [;]
    to [,]. *)
Lemma replace_both (s : string) :
  replace ";" "," (replace "/" "," s) = Spec.map_chars Spec.delimiter_to_comma s.
Proof.
  induction s as [|c r IH]; simpl; [reflexivity|].
  rewrite IH. f_equal. unfold Spec.delimiter_to_comma.
  destruct (Ascii.eqb_spec c "/") as [->|H1]; [reflexivity|].
  destruct (Ascii.eqb_spec c ";") as [->|H2]; reflexivity.
Qed.

End PyStrFacts.

(** ** Facts about the pandas operations *)

Module PandasFacts.
Import Pandas.

Section SortFacts.
Context {A : Type} (before : A -> A -> bool).

Lemma insert_perm (x : A) (l : list A) :
  Permutation (insert before x l) (x :: l).
Proof.
  induction l as [|y t IH]; simpl; [reflexivity|].
  destruct (before x y); [reflexivity|].
  rewrite IH. apply perm_swap.
Qed.

Lemma sort_perm (l : list A) : Permutation (sort before l) l.
Proof.
  induction l as [|x t IH]; simpl; [reflexivity|].
  rewrite insert_perm. now constructor.
Qed.
End SortFacts.

Lemma fillna_length (v : string) (s : Series) : length (fillna v s) = length s.
Proof. apply length_map. Qed.

Lemma fillna_no_missing (v : string) (s : Series) : missing (fillna v s) = 0.
Proof.
  unfold missing.
  induction s as [|[x|] t IH]; cbn [fillna map count_occ]; [reflexivity| |].
  - destruct (cell_dec (Some x) None) as [E|_]; [discriminate E | exact IH].
  - destruct (cell_dec (Some v) None) as [E|_]; [discriminate E | exact IH].
Qed.

(** What the match-normalising chain [fillna('').astype(str).str.lower()]
    leaves in each row. *)
Lemma lower_chain (s : Series) :
  str_lower (astype_str (fillna "" s))
  = map (fun c => PyStr.lower (match c with None => "" | Some x => x end)) s.
Proof.
  unfold str_lower, astype_str, fillna. rewrite !map_map.
  apply map_ext. now intros [x|].
Qed.

Lemma mask_or_map {A : Type} (f g : A -> bool) (l : list A) :
  mask_or (map f l) (map g l) = map (fun x => f x || g x) l.
Proof. induction l as [|x t IH]; simpl; [reflexivity | now rewrite IH]. Qed.

Lemma mask_sum_le_length (mask : list bool) : mask_sum mask <= length mask.
Proof. apply count_occ_bound. Qed.

(** *** Frequency tables *)

Lemma total_count_bump (k : string) (tbl : freq) :
  total_count (bump k tbl) = S (total_count tbl).
Proof.
  unfold total_count. induction tbl as [|[k' n] t IH]; simpl; [reflexivity|].
  destruct (String.eqb k k'); simpl; [reflexivity | rewrite IH; lia].
Qed.

Lemma count_of_bump (k k' : string) (tbl : freq) :
  count_of k (bump k' tbl)
  = if String.eqb k k' then S (count_of k tbl) else count_of k tbl.
Proof.
  unfold count_of. induction tbl as [|[k0 n] t IH]; simpl.
  - destruct (String.eqb k k'); reflexivity.
  - destruct (String.eqb_spec k' k0) as [->|H0]; simpl.
    + destruct (String.eqb k k0); reflexivity.
    + destruct (String.eqb_spec k k0) as [->|H1]; [|exact IH].
      destruct (String.eqb_spec k0 k') as [E|_]; [congruence | reflexivity].
Qed.

Lemma keys_bump (k : string) (tbl : freq) (x : string) :
  In x (map fst (bump k tbl)) <-> x = k \/ In x (map fst tbl).
Proof.
  induction tbl as [|[k' n] t IH]; simpl.
  - intuition congruence.
  - destruct (String.eqb_spec k k') as [->|H]; simpl.
    + intuition congruence.
    + rewrite IH. intuition congruence.
Qed.

Lemma NoDup_bump (k : string) (tbl : freq) :
  NoDup (map fst tbl) -> NoDup (map fst (bump k tbl)).
Proof.
  induction tbl as [|[k' n] t IH]; simpl; intros H.
  - repeat constructor. intros [].
  - inversion H as [|? ? Hnotin Hnd]; subst.
    destruct (String.eqb_spec k k') as [->|Hk]; simpl.
    + now constructor.
    + constructor; [|now apply IH].
      rewrite keys_bump. intros [E|Hin]; [congruence | contradiction].
Qed.

Lemma tally_from_total (s : Series) (tbl : freq) :
  total_count (fold_left tally_step s tbl) + missing s
  = total_count tbl + length s.
Proof.
  revert tbl. unfold missing.
  induction s as [|[x|] t IH]; intros tbl;
    cbn [fold_left tally_step count_occ length]; [lia| |].
  - destruct (cell_dec (Some x) None) as [E|_]; [discriminate E|].
    rewrite IH, total_count_bump. lia.
  - destruct (cell_dec None None) as [_|N]; [|contradiction].
    specialize (IH tbl). lia.
Qed.

Lemma tally_from_count (k : string) (s : Series) (tbl : freq) :
  count_of k (fold_left tally_step s tbl)
  = count_of k tbl + count_occ cell_dec s (Some k).
Proof.
  revert tbl.
  induction s as [|[x|] t IH]; intros tbl;
    cbn [fold_left tally_step count_occ]; [lia| |].
  - rewrite IH, count_of_bump.
    destruct (cell_dec (Some x) (Some k)) as [E|N].
    + injection E as ->. rewrite String.eqb_refl. lia.
    + destruct (String.eqb_spec k x) as [->|_]; [contradiction|lia].
  - destruct (cell_dec None (Some k)) as [E|_]; [discriminate E | apply IH].
Qed.

Lemma tally_from_NoDup (s : Series) (tbl : freq) :
  NoDup (map fst tbl) -> NoDup (map fst (fold_left tally_step s tbl)).
Proof.
  revert tbl. induction s as [|[x|] t IH]; intros tbl H; simpl; auto.
  apply IH. now apply NoDup_bump.
Qed.

(** A table with one bucket per label can be reordered without changing
    what a label looks up. *)
Lemma lookup_perm (k : string) (t t' : freq) :
  Permutation t t' -> NoDup (map fst t) -> lookup k t = lookup k t'.
Proof.
  induction 1 as [|[k0 n] t t' Hp IH|[k0 n] [k1 m] t|t t' t'' Hp1 IH1 Hp2 IH2];
    intros Hnd; simpl.
  - reflexivity.
  - inversion Hnd; subst. now rewrite IH.
  - inversion Hnd as [|? ? Hnotin _]; subst.
    destruct (String.eqb_spec k k1) as [E1|_], (String.eqb_spec k k0) as [E0|_];
      try reflexivity.
    exfalso. apply Hnotin. left. simpl. congruence.
  - rewrite IH1 by assumption. apply IH2.
    eapply Permutation_NoDup; [|exact Hnd]. now apply Permutation_map.
Qed.

Lemma total_count_perm (t t' : freq) :
  Permutation t t' -> total_count t = total_count t'.
Proof.
  intros Hp. unfold total_count.
  induction Hp as [|[k n] t t' _ IH|[k n] [k' m] t|t t' t'' _ IH1 _ IH2];
    simpl in *; lia.
Qed.

(** [value_counts] holds, for each label, the number of rows carrying it,
    and nothing else. *)
Lemma value_counts_count (k : string) (s : Series) :
  count_of k (value_counts s) = count_occ cell_dec s (Some k).
Proof.
  unfold value_counts, count_of.
  rewrite (lookup_perm k _ (tally s)).
  - exact (tally_from_count k s []).
  - apply sort_perm.
  - eapply Permutation_NoDup.
    + apply Permutation_map. symmetry. apply sort_perm.
    + apply (tally_from_NoDup s []). constructor.
Qed.

Lemma value_counts_total (s : Series) :
  total_count (value_counts s) + missing s = length s.
Proof.
  unfold value_counts.
  rewrite (total_count_perm _ (tally s)) by apply sort_perm.
  exact (tally_from_total s []).
Qed.

(** *** Cross-tabulation *)

Lemma labels_perm (l : list string) :
  Permutation (labels l) (nodup string_dec l).
Proof. apply sort_perm. Qed.

Lemma labels_NoDup (l : list string) : NoDup (labels l).
Proof.
  eapply Permutation_NoDup; [symmetry; apply labels_perm | apply NoDup_nodup].
Qed.

Lemma labels_In (x : string) (l : list string) : In x (labels l) <-> In x l.
Proof.
  split; intros H.
  - apply (nodup_In string_dec).
    eapply Permutation_in; [apply labels_perm | exact H].
  - eapply Permutation_in; [symmetry; apply labels_perm|].
    now apply nodup_In.
Qed.

Lemma list_sum_map_add {A : Type} (f g : A -> nat) (l : list A) :
  list_sum (map (fun x => f x + g x) l) = list_sum (map f l) + list_sum (map g l).
Proof. induction l as [|x t IH]; simpl; lia. Qed.

Lemma list_sum_map_zero {A : Type} (l : list A) :
  list_sum (map (fun _ => 0) l) = 0.
Proof. induction l as [|x t IH]; simpl; lia. Qed.

Lemma hit_absent (x : string) (cols : list string) :
  ~ In x cols -> list_sum (map (hit x) cols) = 0.
Proof.
  induction cols as [|c t IH]; simpl; intros H; [reflexivity|].
  unfold hit at 1. destruct (String.eqb_spec x c) as [->|_].
  - exfalso. apply H. now left.
  - apply IH. intros Hin. apply H. now right.
Qed.

(** A label of a duplicate-free axis is hit by exactly one column. *)
Lemma hit_once (x : string) (cols : list string) :
  NoDup cols -> In x cols -> list_sum (map (hit x) cols) = 1.
Proof.
  induction 1 as [|c t Hnotin Hnd IH]; simpl; intros Hin; [contradiction|].
  unfold hit at 1. destruct (String.eqb_spec x c) as [->|Hne].
  - now rewrite hit_absent.
  - apply IH. destruct Hin as [E|Hin]; [congruence | exact Hin].
Qed.

(** The cells of row [r] add up to the number of observations whose first
    component is [r]. *)
Lemma row_total (r : string) (obs : list (string * string)) (cols : list string) :
  NoDup cols ->
  (forall p, In p obs -> In (snd p) cols) ->
  list_sum (map (fun c => count_pair r c obs) cols)
  = length (filter (fun p => String.eqb (fst p) r) obs).
Proof.
  intros Hnd. induction obs as [|[x y] t IH]; intros Hcov.
  - unfold count_pair. simpl. apply list_sum_map_zero.
  - assert (Hy : In y cols) by (apply (Hcov (x, y)); now left).
    assert (Ht : forall p, In p t -> In (snd p) cols)
      by (intros p Hp; apply Hcov; now right).
    specialize (IH Ht).
    rewrite (map_ext _ (fun c => (if String.eqb x r then hit y c else 0)
                                 + count_pair r c t)).
    + rewrite list_sum_map_add, IH. cbn [filter fst].
      destruct (String.eqb x r).
      * rewrite (map_ext _ (hit y)) by reflexivity.
        now rewrite (hit_once y cols Hnd Hy).
      * now rewrite list_sum_map_zero.
    + intros c. unfold count_pair, hit. simpl.
      destruct (String.eqb x r), (String.eqb y c); reflexivity.
Qed.

Lemma row_observed (r : string) (obs : list (string * string)) :
  In r (map fst obs) ->
  1 <= length (filter (fun p => String.eqb (fst p) r) obs).
Proof.
  induction obs as [|[x y] t IH]; simpl; [contradiction|].
  intros [E|Hin].
  - subst. rewrite String.eqb_refl. simpl. lia.
  - destruct (String.eqb x r); simpl; [lia | now apply IH].
Qed.

Lemma div_rows_map {A : Type} (f : A -> list nat) (g : A -> nat) (idx : list A) :
  div_rows (map f idx) (map g idx)
  = map (fun r => map (fun v => np_div v (g r)) (f r)) idx.
Proof. induction idx as [|r t IH]; simpl; [reflexivity | now rewrite IH]. Qed.

(** *** Arithmetic of a normalised row *)

Lemma of_nat_add (a b : nat) : (of_nat (a + b) == of_nat a + of_nat b)%Q.
Proof. unfold of_nat. now rewrite Nat2Z.inj_add, inject_Z_plus. Qed.

Lemma of_nat_pos (n : nat) : (0 < n)%nat -> (0 < of_nat n)%Q.
Proof.
  intros H. unfold of_nat. change 0%Q with (inject_Z 0).
  rewrite <- Zlt_Qlt. lia.
Qed.

Lemma of_nat_le (a b : nat) : (a <= b)%nat -> (of_nat a <= of_nat b)%Q.
Proof. intros H. unfold of_nat. rewrite <- Zle_Qle. lia. Qed.

Lemma np_div_pos (v T : nat) :
  (0 < T)%nat -> np_div v T = Fin (of_nat v / of_nat T).
Proof. destruct T; [lia | reflexivity]. Qed.

(** The percentages of a row with a positive total are finite and add up
    to the share of the total that the row's cells hold. *)
Lemma row_pct_sum (T : nat) (l : list nat) :
  (0 < T)%nat ->
  exists q, num_sum (map (fun v => num_mul (np_div v T) 100) l) = Fin q
            /\ (q == of_nat (list_sum l) / of_nat T * 100)%Q.
Proof.
  intros HT. induction l as [|v t [q [Hq Hsum]]]; simpl.
  - exists 0%Q. split; [reflexivity|]. unfold of_nat. simpl. field.
    intros H. pose proof (of_nat_pos T HT) as Hp. unfold of_nat in Hp.
    rewrite H in Hp. now apply Qlt_irrefl in Hp.
  - rewrite Hq, (np_div_pos v T HT). simpl.
    eexists. split; [reflexivity|].
    rewrite Hsum, of_nat_add. field.
    intros H. pose proof (of_nat_pos T HT) as Hp.
    rewrite H in Hp. now apply Qlt_irrefl in Hp.
Qed.

End PandasFacts.

(** ** Facts about the script *)

Module DashboardFacts.
Import Pandas PandasFacts Dashboard.

Lemma Forall2_map_self {A B : Type} (R : A -> B -> Prop) (f : A -> B)
      (l : list A) :
  (forall x, R x (f x)) -> Forall2 R l (map f l).
Proof. intros H. induction l; simpl; constructor; auto. Qed.

Lemma getitem_length (df : DataFrame) (c : string) (s : Series) :
  getitem df c = Ok s -> length s = len df.
Proof.
  unfold getitem, get. destruct (position c (columns df)); simpl; [|discriminate].
  intros H. injection H as <-. apply length_map.
Qed.

Lemma position_absent (c : string) (names : list string) :
  position c names = None <-> ~ In c names.
Proof.
  induction names as [|n ns IH]; simpl.
  - intuition.
  - destruct (String.eqb_spec c n) as [->|Hne].
    + split; [discriminate | intros H; exfalso; apply H; now left].
    + destruct (position c ns); simpl.
      * split; [discriminate|]. intros H. exfalso.
        destruct IH as [_ IH]. 
        assert (Hn : ~ In c ns) by (intros Hin; apply H; now right).
        discriminate (IH Hn).
      * split; [|reflexivity]. intros _ [E|Hin]; [congruence|].
        now apply (proj1 IH).
Qed.

Lemma get_absent (df : DataFrame) (c : string) :
  get df c = None <-> ~ In c (columns df).
Proof.
  unfold get. rewrite <- position_absent.
  destruct (position c (columns df)); simpl; split; congruence.
Qed.

Lemma private_mask_rows (df : DataFrame) (tm : Series) :
  getitem df "Travel Mode" = Ok tm ->
  private_mask df = Ok (map is_private tm).
Proof.
  intros H. unfold private_mask, travel_mode_lower. rewrite H. simpl.
  rewrite lower_chain. unfold str_contains. rewrite !map_map.
  rewrite !mask_or_map. reflexivity.
Qed.

Lemma open_to_carpool_mask_rows (df : DataFrame) (cw : Series) :
  getitem df "Carpool Willingness" = Ok cw ->
  open_to_carpool_mask df = Ok (map is_open cw).
Proof.
  intros H. unfold open_to_carpool_mask, carpool_lower. rewrite H. simpl.
  rewrite lower_chain. unfold isin. now rewrite map_map.
Qed.

Lemma cab_issue_mask_rows (df : DataFrame) (ca : Series) :
  getitem df "Cab Availability Issues" = Ok ca ->
  cab_issue_mask df = Ok (map is_issue ca).
Proof.
  intros H. unfold cab_issue_mask, cab_issue_lower. rewrite H. simpl.
  rewrite lower_chain. unfold isin. now rewrite map_map.
Qed.

(** The expression of lines 33, 36 and 39 never leaves the range of a
    percentage when the mask has no more true rows than the total. *)
Lemma pct_in_range (mask : list bool) (total : nat) :
  mask_sum mask <= total ->
  exists q, pct mask total = Fin q /\ (0 <= q)%Q /\ (q <= 100)%Q.
Proof.
  intros Hle. unfold pct. destruct (Nat.eqb_spec total 0) as [->|Hpos].
  - exists 0%Q. repeat split; [apply Qle_refl | discriminate].
  - assert (HT : (0 < of_nat total)%Q) by (apply of_nat_pos; lia).
    rewrite np_div_pos by lia. simpl. eexists. split; [reflexivity|]. split.
    + apply Qmult_le_0_compat; [|discriminate].
      apply Qle_shift_div_l; [exact HT|].
      rewrite Qmult_0_l. change 0%Q with (of_nat 0). apply of_nat_le. lia.
    + setoid_replace 100%Q with (1 * 100)%Q at 2 by reflexivity.
      apply Qmult_le_compat_r; [|discriminate].
      apply Qle_shift_div_r; [exact HT|].
      rewrite Qmult_1_l. now apply of_nat_le.
Qed.

Lemma pct_zero_total (mask : list bool) : pct mask 0 = Fin 0.
Proof. reflexivity. Qed.

(** *** The classification masks *)

Import PyStr PyStrFacts Samples.

(** C1.  Private-vehicle mask: a row is true exactly when its travel mode,
    lower-cased and with a missing cell read as the empty string, contains
    "own car", "personal" or "bike".  For the modes Own Car, Ola/Uber, Bike
    the mask is true, false, true and the percentage is 200/3. *)
Theorem private_mask_keywords (df : DataFrame) (tm : Series)
        (Htm : getitem df "Travel Mode" = Ok tm) :
  (exists mask,
      private_mask df = Ok mask
      /\ Forall2 (fun c b =>
                    b = true <->
                    Substring "own car" (lowered c)
                    \/ Substring "personal" (lowered c)
                    \/ Substring "bike" (lowered c))
                 tm mask)
  /\ getitem three_modes "Travel Mode"
     = Ok [Some "Own Car"; Some "Ola/Uber"; Some "Bike"]
  /\ private_mask three_modes = Ok [true; false; true]
  /\ exists q, pct_private three_modes = Ok (Fin q) /\ (q == 200 # 3)%Q.
Proof.
  split; [|split; [reflexivity | split; [reflexivity|]]].
  - exists (map is_private tm). split; [now apply private_mask_rows|].
    apply Forall2_map_self. intros c. unfold is_private.
    rewrite !orb_true_iff, !contains_iff. tauto.
  - eexists. split; [reflexivity | reflexivity].
Qed.

Lemma private_mask_keywords_witness :
  exists mask,
    private_mask three_modes = Ok mask
    /\ Forall2 (fun c b =>
                  b = true <->
                  Substring "own car" (lowered c)
                  \/ Substring "personal" (lowered c)
                  \/ Substring "bike" (lowered c))
               [Some "Own Car"; Some "Ola/Uber"; Some "Bike"] mask.
Proof.
  exact (proj1 (private_mask_keywords three_modes
                  [Some "Own Car"; Some "Ola/Uber"; Some "Bike"] eq_refl)).
Defined.

(** C3, as stated, fails: the answer " Yes " trims and lower-cases to
    "yes", which the claim classifies as open to carpooling, but line 34
    does not trim and the mask is false at that row. *)
Lemma open_to_carpool_untrimmed :
  (getitem padded_yes "Carpool Willingness" = Ok [Some " Yes "]
   /\ Spec.open_to_carpool (Some " Yes ") = true
   /\ open_to_carpool_mask padded_yes = Ok [false])
  /\ ~ (forall df cw,
          getitem df "Carpool Willingness" = Ok cw ->
          open_to_carpool_mask df = Ok (map Spec.open_to_carpool cw)).
Proof.
  split; [repeat split|].
  intros H. specialize (H padded_yes _ eq_refl). discriminate H.
Qed.

(** C3, amended.  Open-to-carpool mask: a row is true exactly when its
    answer, lower-cased and with a missing cell read as the empty string
    but not trimmed, is exactly "yes" or "maybe"; an answer that differs
    from one of them by letter case only is true. *)
Theorem open_to_carpool_exact (df : DataFrame) (cw : Series)
        (Hcw : getitem df "Carpool Willingness" = Ok cw) :
  exists mask,
    open_to_carpool_mask df = Ok mask
    /\ Forall2 (fun c b =>
                  b = true <-> lowered c = "yes" \/ lowered c = "maybe")
               cw mask
    /\ Forall2 (fun c b =>
                  forall x, c = Some x ->
                            lower x = "yes" \/ lower x = "maybe" -> b = true)
               cw mask.
Proof.
  exists (map is_open cw). split; [now apply open_to_carpool_mask_rows|].
  assert (Hrow : forall c, is_open c = true
                           <-> lowered c = "yes" \/ lowered c = "maybe").
  { intros c. unfold is_open. simpl.
    rewrite !orb_true_iff, !String.eqb_eq. intuition discriminate. }
  split; apply Forall2_map_self; intros c; [apply Hrow|].
  intros x -> H. apply Hrow. exact H.
Qed.

Lemma open_to_carpool_exact_witness :
  exists mask,
    open_to_carpool_mask four_answers = Ok mask
    /\ Forall2 (fun c b =>
                  b = true <-> lowered c = "yes" \/ lowered c = "maybe")
               [Some "Yes"; Some "No"; Some "Maybe"; Some "yes"] mask
    /\ Forall2 (fun c b =>
                  forall x, c = Some x ->
                            lower x = "yes" \/ lower x = "maybe" -> b = true)
               [Some "Yes"; Some "No"; Some "Maybe"; Some "yes"] mask.
Proof.
  exact (open_to_carpool_exact four_answers
           [Some "Yes"; Some "No"; Some "Maybe"; Some "yes"] eq_refl).
Defined.

(** *** Missing cells *)

Lemma mask_sum_missing (f : cell -> bool) (s : Series) :
  f None = false -> mask_sum (map f s) + missing s <= length s.
Proof.
  intros Hf. unfold mask_sum, missing.
  induction s as [|c t IH]; cbn [map count_occ length]; [lia|].
  destruct c as [x|].
  - destruct (cell_dec (Some x) None) as [E|_]; [discriminate E|].
    destruct (bool_dec (f (Some x)) true); lia.
  - rewrite Hf. destruct (cell_dec None None) as [_|N]; [|contradiction].
    destruct (bool_dec false true) as [E|_]; [discriminate E | lia].
Qed.

Lemma pct_denominator (mask : list bool) (total : nat) :
  mask_sum mask <= total ->
  exists q, pct mask total = Fin q
            /\ (q * of_nat total == 100 * of_nat (mask_sum mask))%Q.
Proof.
  intros Hle. unfold pct. destruct (Nat.eqb_spec total 0) as [->|Hpos].
  - exists 0%Q. split; [reflexivity|].
    replace (mask_sum mask) with 0 by lia. reflexivity.
  - rewrite np_div_pos by lia. simpl. eexists. split; [reflexivity|].
    field. intros H. assert (HT : (0 < of_nat total)%Q) by (apply of_nat_pos; lia).
    rewrite H in HT. now apply Qlt_irrefl in HT.
Qed.

Lemma missing_counts_against_rows (f : cell -> bool) (col : Series) :
  f None = false ->
  Spec.missing_counts_against col (map f col)
    (pct (map f col) (length col)) (length col).
Proof.
  intros Hf. unfold Spec.missing_counts_against.
  split; [reflexivity|]. split; [apply length_map|]. split; [|split].
  - intros i Hi. rewrite nth_error_map, Hi. simpl. now rewrite Hf.
  - now apply mask_sum_missing.
  - apply pct_denominator. rewrite <- (length_map f col).
    apply mask_sum_le_length.
Qed.

(** C10.  A missing travel-mode, carpool or cab-availability cell makes
    its mask false at that row, and the row still counts in
    [total_responses], the denominator of all three percentages. *)
Theorem missing_rows_lower_percentages (df : DataFrame) (tm cw ca : Series)
        (Htm : getitem df "Travel Mode" = Ok tm)
        (Hcw : getitem df "Carpool Willingness" = Ok cw)
        (Hca : getitem df "Cab Availability Issues" = Ok ca) :
  exists pm om im p1 p2 p3,
    (private_mask df = Ok pm /\ pct_private df = Ok p1
     /\ Spec.missing_counts_against tm pm p1 (total_responses df))
    /\ (open_to_carpool_mask df = Ok om /\ pct_open_carpool df = Ok p2
        /\ Spec.missing_counts_against cw om p2 (total_responses df))
    /\ (cab_issue_mask df = Ok im /\ pct_cab_issues df = Ok p3
        /\ Spec.missing_counts_against ca im p3 (total_responses df)).
Proof.
  pose proof (getitem_length _ _ _ Htm) as Ltm.
  pose proof (getitem_length _ _ _ Hcw) as Lcw.
  pose proof (getitem_length _ _ _ Hca) as Lca.
  exists (map is_private tm), (map is_open cw), (map is_issue ca).
  unfold pct_private, pct_open_carpool, pct_cab_issues, total_responses.
  rewrite (private_mask_rows _ _ Htm), (open_to_carpool_mask_rows _ _ Hcw),
    (cab_issue_mask_rows _ _ Hca). simpl.
  do 3 eexists.
  split; [|split]; (split; [reflexivity | split; [reflexivity|]]).
  - rewrite <- Ltm. now apply missing_counts_against_rows.
  - rewrite <- Lcw. now apply missing_counts_against_rows.
  - rewrite <- Lca. now apply missing_counts_against_rows.
Qed.

Lemma missing_rows_lower_percentages_witness :
  exists pm om im p1 p2 p3,
    (private_mask with_missing = Ok pm /\ pct_private with_missing = Ok p1
     /\ Spec.missing_counts_against [Some "Own Car"; None; Some "Bike"] pm p1
          (total_responses with_missing))
    /\ (open_to_carpool_mask with_missing = Ok om
        /\ pct_open_carpool with_missing = Ok p2
        /\ Spec.missing_counts_against [Some "Yes"; None; Some "Maybe"] om p2
             (total_responses with_missing))
    /\ (cab_issue_mask with_missing = Ok im
        /\ pct_cab_issues with_missing = Ok p3
        /\ Spec.missing_counts_against [Some "Sometimes"; None; Some "No"] im p3
             (total_responses with_missing)).
Proof.
  exact (missing_rows_lower_percentages with_missing
           [Some "Own Car"; None; Some "Bike"]
           [Some "Yes"; None; Some "Maybe"]
           [Some "Sometimes"; None; Some "No"]
           eq_refl eq_refl eq_refl).
Defined.

(** *** The headline percentages *)

Lemma pct_percentage (mask : list bool) (total : nat) :
  mask_sum mask <= total -> Spec.percentage (pct mask total).
Proof.
  intros H. destruct (pct_in_range mask total H) as [q [-> Hq]]. exact Hq.
Qed.

(** C4.  The percentage expression is a number between 0 and 100 for
    every mask over its own number of rows and is 0 when the total is 0;
    the three headline figures of a table are such percentages, and a
    table without rows has [total_responses] 0 and all three figures 0. *)
Theorem percentages_in_range (df : DataFrame) (tm cw ca : Series)
        (Htm : getitem df "Travel Mode" = Ok tm)
        (Hcw : getitem df "Carpool Willingness" = Ok cw)
        (Hca : getitem df "Cab Availability Issues" = Ok ca) :
  (forall mask, Spec.percentage (pct mask (length mask)))
  /\ (forall mask, pct mask 0 = Fin 0)
  /\ (exists p1 p2 p3,
         pct_private df = Ok p1 /\ pct_open_carpool df = Ok p2
         /\ pct_cab_issues df = Ok p3
         /\ Spec.percentage p1 /\ Spec.percentage p2 /\ Spec.percentage p3)
  /\ (rows df = [] ->
      total_responses df = 0
      /\ pct_private df = Ok (Fin 0)
      /\ pct_open_carpool df = Ok (Fin 0)
      /\ pct_cab_issues df = Ok (Fin 0)).
Proof.
  split; [intros mask; apply pct_percentage, mask_sum_le_length|].
  split; [exact pct_zero_total|].
  pose proof (getitem_length _ _ _ Htm) as Ltm.
  pose proof (getitem_length _ _ _ Hcw) as Lcw.
  pose proof (getitem_length _ _ _ Hca) as Lca.
  unfold pct_private, pct_open_carpool, pct_cab_issues, total_responses.
  rewrite (private_mask_rows _ _ Htm), (open_to_carpool_mask_rows _ _ Hcw),
    (cab_issue_mask_rows _ _ Hca). cbn [bind].
  split.
  - do 3 eexists. do 3 (split; [reflexivity|]).
    split; [|split]; apply pct_percentage.
    + rewrite <- Ltm, <- (length_map is_private tm). apply mask_sum_le_length.
    + rewrite <- Lcw, <- (length_map is_open cw). apply mask_sum_le_length.
    + rewrite <- Lca, <- (length_map is_issue ca). apply mask_sum_le_length.
  - intros Hrows. unfold len. rewrite Hrows. simpl.
    repeat split; reflexivity.
Qed.

Lemma percentages_in_range_witness :
  total_responses no_rows = 0
  /\ pct_private no_rows = Ok (Fin 0)
  /\ pct_open_carpool no_rows = Ok (Fin 0)
  /\ pct_cab_issues no_rows = Ok (Fin 0).
Proof.
  exact (proj2 (proj2 (proj2
           (percentages_in_range no_rows [] [] [] eq_refl eq_refl eq_refl)))
           eq_refl).
Defined.

(** *** Frequency tables *)

Lemma count_displayed (k : string) (s : Series) :
  count_occ cell_dec (fillna "(Missing)" s) (Some k)
  = count_occ string_dec (map displayed s) k.
Proof.
  induction s as [|c t IH]; cbn [fillna map count_occ]; [reflexivity|].
  fold (fillna "(Missing)" t). rewrite IH.
  destruct c as [x|]; cbn [displayed].
  - destruct (cell_dec (Some x) (Some k)) as [E|N], (string_dec x k) as [E'|N'];
      congruence.
  - destruct (cell_dec (Some "(Missing)") (Some k)) as [E|N],
             (string_dec "(Missing)" k) as [E'|N']; congruence.
Qed.

Lemma missing_displayed (s : Series) :
  missing s <= count_occ string_dec (map displayed s) "(Missing)".
Proof.
  unfold missing.
  induction s as [|c t IH]; cbn [map count_occ]; [lia|].
  destruct c as [x|]; cbn [displayed].
  - destruct (cell_dec (Some x) None) as [E|_]; [discriminate E|].
    destruct (string_dec x "(Missing)"); lia.
  - destruct (cell_dec None None) as [_|N]; [|contradiction].
    destruct (string_dec "(Missing)" "(Missing)") as [_|N]; [lia | contradiction].
Qed.

(** The display-normalised frequency table of a column: every row in
    exactly one bucket, the one of its displayed value. *)
Lemma display_counts (s : Series) :
  total_count (value_counts (fillna "(Missing)" s)) = length s
  /\ forall k, count_of k (value_counts (fillna "(Missing)" s))
               = count_occ string_dec (map displayed s) k.
Proof.
  split.
  - pose proof (value_counts_total (fillna "(Missing)" s)) as H.
    rewrite fillna_no_missing, fillna_length in H. lia.
  - intros k. rewrite value_counts_count. apply count_displayed.
Qed.

(** C8.  The counts of the travel-mode and of the carpool-willingness
    frequency table add up to the number of rows: each row is counted once,
    under its own value or, when the cell is missing, under "(Missing)". *)
Theorem frequency_counts_every_row (df : DataFrame) (tm cw : Series)
        (Htm : getitem df "Travel Mode" = Ok tm)
        (Hcw : getitem df "Carpool Willingness" = Ok cw) :
  exists mc pc,
    mode_counts df = Ok mc /\ pool_counts df = Ok pc
    /\ total_count mc = total_responses df
    /\ total_count pc = total_responses df
    /\ (forall k, count_of k mc = count_occ string_dec (map displayed tm) k)
    /\ (forall k, count_of k pc = count_occ string_dec (map displayed cw) k)
    /\ missing tm <= count_of "(Missing)" mc
    /\ missing cw <= count_of "(Missing)" pc.
Proof.
  unfold mode_counts, pool_counts, total_responses. rewrite Htm, Hcw. cbn [bind].
  destruct (display_counts tm) as [Tm Km], (display_counts cw) as [Tc Kc].
  do 2 eexists. do 2 (split; [reflexivity|]).
  rewrite Tm, Tc, (getitem_length _ _ _ Htm), (getitem_length _ _ _ Hcw).
  do 2 (split; [reflexivity|]). do 2 (split; [assumption|]).
  rewrite Km, Kc. split; apply missing_displayed.
Qed.

Lemma frequency_counts_every_row_witness :
  exists mc pc,
    mode_counts with_missing = Ok mc /\ pool_counts with_missing = Ok pc
    /\ total_count mc = total_responses with_missing
    /\ total_count pc = total_responses with_missing
    /\ (forall k, count_of k mc
                  = count_occ string_dec
                      (map displayed [Some "Own Car"; None; Some "Bike"]) k)
    /\ (forall k, count_of k pc
                  = count_occ string_dec
                      (map displayed [Some "Yes"; None; Some "Maybe"]) k)
    /\ missing [Some "Own Car"; None; Some "Bike"] <= count_of "(Missing)" mc
    /\ missing [Some "Yes"; None; Some "Maybe"] <= count_of "(Missing)" pc.
Proof.
  exact (frequency_counts_every_row with_missing
           [Some "Own Car"; None; Some "Bike"]
           [Some "Yes"; None; Some "Maybe"] eq_refl eq_refl).
Defined.

(** C2, as stated, fails: line 70 counts the answers as written, so "Yes"
    and "yes" are two buckets of one row each, not one bucket of two. *)
Lemma pool_counts_case_sensitive :
  getitem four_answers "Carpool Willingness"
  = Ok [Some "Yes"; Some "No"; Some "Maybe"; Some "yes"]
  /\ pool_counts four_answers
     = Ok [("Yes", 1); ("No", 1); ("Maybe", 1); ("yes", 1)]
  /\ ~ (exists t, pool_counts four_answers = Ok t
                  /\ Permutation t [("Yes", 2); ("No", 1); ("Maybe", 1)]).
Proof.
  split; [reflexivity | split; [reflexivity|]].
  intros [t [Ht Hp]]. injection Ht as <-.
  apply Permutation_length in Hp. discriminate Hp.
Qed.

(** C2, amended.  The carpool-willingness frequency table groups the
    answers as written, letter case included: each label counts the rows
    whose displayed answer is exactly that label.  For the answers Yes, No,
    Maybe, yes the table is Yes 1, No 1, Maybe 1, yes 1, and the
    open-to-carpool percentage, whose mask does lower-case, is 75. *)
Theorem pool_counts_as_written (df : DataFrame) (cw : Series)
        (Hcw : getitem df "Carpool Willingness" = Ok cw) :
  (exists t, pool_counts df = Ok t
             /\ forall k, count_of k t
                          = count_occ string_dec (map displayed cw) k)
  /\ pool_counts four_answers
     = Ok [("Yes", 1); ("No", 1); ("Maybe", 1); ("yes", 1)]
  /\ exists q, pct_open_carpool four_answers = Ok (Fin q) /\ (q == 75)%Q.
Proof.
  split; [|split; [reflexivity|]].
  - unfold pool_counts. rewrite Hcw. cbn [bind]. eexists.
    split; [reflexivity | apply display_counts].
  - eexists. split; reflexivity.
Qed.

Lemma pool_counts_as_written_witness :
  exists t, pool_counts four_answers = Ok t
            /\ forall k, count_of k t
                         = count_occ string_dec
                             (map displayed
                                [Some "Yes"; Some "No"; Some "Maybe"; Some "yes"])
                             k.
Proof.
  exact (proj1 (pool_counts_as_written four_answers
                  [Some "Yes"; Some "No"; Some "Maybe"; Some "yes"] eq_refl)).
Defined.

(** *** The cross-tabulation *)

Lemma observation_covered (obs : list (string * string)) (p : string * string) :
  In p obs -> In (snd p) (labels (map snd obs)).
Proof. intros H. apply labels_In. now apply in_map. Qed.

(** Every row of a cross-tabulation holds at least one observation, and
    its percentages are finite and add up to 100. *)
Lemma crosstab_normalised (a b : Series) :
  let c := crosstab a b in
  let p := mul_scalar (div_axis0 c (sum_axis1 c)) 100 in
  Forall (fun n => 1 <= n) (sum_axis1 c)
  /\ Forall (fun row =>
               Forall (fun v => is_finite v = true /\ is_nan v = false) row
               /\ exists q, num_sum row = Fin q /\ (q == 100)%Q)
            (ct_values p).
Proof.
  cbv zeta. unfold crosstab, sum_axis1, mul_scalar, div_axis0.
  cbn [ct_values ct_index ct_columns].
  set (obs := observations a b).
  set (cols := labels (map snd obs)).
  set (idx := labels (map fst obs)).
  set (cells := fun r => map (fun c => count_pair r c obs) cols).
  assert (Hrow : forall r, In r idx -> 1 <= list_sum (cells r)).
  { intros r Hr. unfold cells.
    rewrite (row_total r obs cols (labels_NoDup _) (observation_covered obs)).
    apply row_observed. now apply (labels_In r (map fst obs)). }
  rewrite (map_map cells (fun row => list_sum row)).
  rewrite (div_rows_map cells (fun r => list_sum (cells r)) idx), map_map.
  split; apply Forall_forall.
  - intros n Hn. apply in_map_iff in Hn as [r [<- Hr]]. now apply Hrow.
  - intros row Hin. apply in_map_iff in Hin as [r [<- Hr]].
    specialize (Hrow r Hr). rewrite map_map. split.
    + apply Forall_forall. intros v Hv.
      apply in_map_iff in Hv as [n [<- _]].
      rewrite np_div_pos by lia. now split.
    + destruct (row_pct_sum (list_sum (cells r)) (cells r)) as [q [Hq Hs]];
        [lia|].
      exists q. split; [exact Hq|]. rewrite Hs. field.
      intros H. assert (HT : (0 < of_nat (list_sum (cells r)))%Q)
        by (apply of_nat_pos; lia).
      rewrite H in HT. now apply Qlt_irrefl in HT.
Qed.

(** The division of line 59 has no guard of its own: on a row without
    observations it would produce not-a-number. *)
Lemma div_rows_zero_row : div_rows [[0; 0]] [0] = [[NaN; NaN]].
Proof. reflexivity. Qed.

(** *** The reason tokenizer *)

Lemma fold_left_extend {A B : Type} (f : A -> list B) (l : list A)
      (acc : list B) :
  fold_left (fun all x => (all ++ f x)%list) l acc = (acc ++ flat_map f l)%list.
Proof.
  revert acc. induction l as [|x t IH]; intros acc; simpl.
  - now rewrite app_nil_r.
  - now rewrite IH, app_assoc.
Qed.

Lemma split_reasons_flat (texts : Series) :
  split_reasons texts = flat_map parts_of (astype_str (dropna texts)).
Proof. unfold split_reasons. now rewrite fold_left_extend. Qed.

(** The list comprehension of line 83 is a map followed by a filter. *)
Lemma comprehension_filter (pieces : list string) :
  flat_map (fun p => if truthy (strip p) then [strip p] else []) pieces
  = filter truthy (map strip pieces).
Proof.
  induction pieces as [|p t IH]; simpl; [reflexivity|].
  rewrite IH. destruct (truthy (strip p)); reflexivity.
Qed.

Lemma parts_of_tokens (x : string) :
  map title (parts_of x) = Spec.tokens_of_cell (Some x).
Proof.
  unfold parts_of, Spec.tokens_of_cell.
  now rewrite comprehension_filter, replace_both.
Qed.

Lemma reason_tokens_cons (c : cell) (texts : Series) :
  reason_tokens (c :: texts)
  = (Spec.tokens_of_cell c ++ reason_tokens texts)%list.
Proof.
  unfold reason_tokens. rewrite !split_reasons_flat.
  destruct c as [x|]; simpl; [|reflexivity].
  now rewrite map_app, parts_of_tokens.
Qed.

(** C6.  The tokenizer handles each cell that is not missing by replacing
    "/" and ";" with ",", splitting on ",", trimming each piece, dropping
    the empty ones and title-casing the rest, and emits the tokens in row
    order and, within a row, in split order.  The cell
    "High Cost/Safety Concerns; Inconvenient" gives High Cost, Safety
    Concerns, Inconvenient. *)
Theorem reason_tokens_follow_algorithm :
  (forall texts, reason_tokens texts = Spec.tokenize_reasons texts)
  /\ reason_tokens [Some "High Cost/Safety Concerns; Inconvenient"]
     = ["High Cost"; "Safety Concerns"; "Inconvenient"].
Proof.
  split; [|reflexivity].
  induction texts as [|c t IH]; [reflexivity|].
  rewrite reason_tokens_cons, IH. reflexivity.
Qed.

(** C9.  A cell that is one clean token -- not empty, already trimmed,
    already title-cased, without comma, slash or semicolon -- tokenizes to
    that token alone, unchanged. *)
Theorem clean_token_is_fixed (t : string)
        (Hne : t <> "")
        (Htrim : strip t = t)
        (Htitle : title t = t)
        (Hcomma : mem_char "," t = false)
        (Hslash : mem_char "/" t = false)
        (Hsemi : mem_char ";" t = false) :
  reason_tokens [Some t] = [t].
Proof.
  unfold reason_tokens. rewrite split_reasons_flat. simpl.
  rewrite app_nil_r. unfold parts_of.
  rewrite (replace_without_old "/" "," t Hslash).
  rewrite (replace_without_old ";" "," t Hsemi).
  rewrite (split_without_sep "," t Hcomma). simpl.
  rewrite Htrim. destruct t as [|a r]; [contradiction|].
  simpl map. now rewrite Htitle.
Qed.

Lemma clean_token_is_fixed_witness :
  reason_tokens [Some "High Cost"] = ["High Cost"].
Proof.
  apply clean_token_is_fixed; [discriminate | reflexivity ..].
Defined.

(** C7.  When an optional reason column is absent from the table, its
    list of reasons and its table of counts are empty; nothing is
    raised. *)
Theorem absent_reason_columns_are_empty (df : DataFrame) :
  (~ In "Reason for not using Ola/Uber/Rapido frequently" (columns df) ->
   reasons_list df = [] /\ reasons_df df = [])
  /\ (~ In "Reason for not preferring carpooling" (columns df) ->
      reasons_carpool_list df = [] /\ reasons_carpool_df df = []).
Proof.
  unfold reasons_list, reasons_df, reasons_carpool_list, reasons_carpool_df,
    reasons_df_of, reasons_list_of.
  split; intros H; apply get_absent in H; rewrite H; split; reflexivity.
Qed.

Lemma absent_reason_columns_are_empty_witness :
  (reasons_list three_modes = [] /\ reasons_df three_modes = [])
  /\ (reasons_carpool_list three_modes = []
      /\ reasons_carpool_df three_modes = []).
Proof.
  destruct (absent_reason_columns_are_empty three_modes) as [H1 H2].
  split; [apply H1 | apply H2]; simpl; intuition discriminate.
Defined.

End DashboardFacts.

(** ** Laws of [strip], [lower] and [title] *)

Module StrLaws.
Import PyStr PyStrFacts.

Lemma cased_disjoint (c : ascii) : is_lower c && is_upper c = false.
Proof. destruct c as [[] [] [] [] [] [] [] []]; reflexivity. Qed.

Lemma space_uncased (c : ascii) : is_space c && is_cased c = false.
Proof. destruct c as [[] [] [] [] [] [] [] []]; reflexivity. Qed.

Lemma delimiter_uncased (c : ascii) : is_delimiter c && is_cased c = false.
Proof. destruct c as [[] [] [] [] [] [] [] []]; reflexivity. Qed.

Lemma upper_of_lower (c : ascii) :
  is_lower c = true ->
  is_upper (upper_char c) = true /\ is_lower (upper_char c) = false
  /\ lower_char (upper_char c) = c.
Proof. destruct c as [[] [] [] [] [] [] [] []]; vm_compute; auto; discriminate. Qed.

Lemma lower_of_upper (c : ascii) :
  is_upper c = true ->
  is_lower (lower_char c) = true /\ is_upper (lower_char c) = false
  /\ upper_char (lower_char c) = c.
Proof. destruct c as [[] [] [] [] [] [] [] []]; vm_compute; auto; discriminate. Qed.

Lemma title_from_cons (b : bool) (c : ascii) (r : string) :
  title_from b (String c r) = String (title_char b c) (title_from (is_cased c) r).
Proof.
  unfold title_char, is_cased. simpl.
  destruct (is_lower c), (is_upper c); reflexivity.
Qed.

(** [title_char] keeps what kind of character it is given. *)
Lemma title_char_kind (b : bool) (c : ascii) :
  is_cased (title_char b c) = is_cased c
  /\ is_space (title_char b c) = is_space c
  /\ is_delimiter (title_char b c) = is_delimiter c.
Proof. destruct b, c as [[] [] [] [] [] [] [] []]; repeat split; reflexivity. Qed.

Lemma title_char_idem (b : bool) (c : ascii) :
  title_char b (title_char b c) = title_char b c.
Proof. destruct b, c as [[] [] [] [] [] [] [] []]; reflexivity. Qed.

Lemma title_char_lower (b : bool) (c : ascii) :
  title_char b (lower_char c) = title_char b c.
Proof. destruct b, c as [[] [] [] [] [] [] [] []]; reflexivity. Qed.

Lemma lower_char_cased (c : ascii) : is_cased (lower_char c) = is_cased c.
Proof. destruct c as [[] [] [] [] [] [] [] []]; reflexivity. Qed.

(** *** [strip] *)

Lemma lstrip_idem (s : string) : lstrip (lstrip s) = lstrip s.
Proof.
  induction s as [|c r IH]; simpl; [reflexivity|].
  destruct (is_space c) eqn:E; [exact IH|]. simpl. now rewrite E.
Qed.

Lemma rstrip_idem (s : string) : rstrip (rstrip s) = rstrip s.
Proof.
  induction s as [|c r IH]; [reflexivity|].
  cbn [rstrip]. destruct (rstrip r) as [|a r'] eqn:E.
  - destruct (is_space c) eqn:Ec; [reflexivity|]. simpl. now rewrite Ec.
  - remember (String a r') as t eqn:Et. cbn [rstrip]. rewrite IH.
    now subst t.
Qed.

Lemma lstrip_rstrip (s : string) : lstrip (rstrip s) = rstrip (lstrip s).
Proof.
  induction s as [|c r IH]; [reflexivity|].
  cbn [rstrip lstrip]. destruct (is_space c) eqn:Ec.
  - rewrite <- IH. destruct (rstrip r) as [|a r']; [reflexivity|].
    cbn [lstrip]. now rewrite Ec.
  - cbn [rstrip]. destruct (rstrip r) as [|a r']; rewrite ?Ec;
      cbn [lstrip]; now rewrite ?Ec.
Qed.

Lemma strip_idem (s : string) : strip (strip s) = strip s.
Proof.
  unfold strip.
  now rewrite (lstrip_rstrip (lstrip s)), lstrip_idem, rstrip_idem.
Qed.

Lemma has_delimiter_lstrip (s : string) :
  has_delimiter s = false -> has_delimiter (lstrip s) = false.
Proof.
  induction s as [|c r IH]; simpl; [reflexivity|].
  intros H. apply orb_false_iff in H as [Hc Hr].
  destruct (is_space c); [now apply IH|]. simpl. now rewrite Hc, Hr.
Qed.

Lemma has_delimiter_rstrip (s : string) :
  has_delimiter s = false -> has_delimiter (rstrip s) = false.
Proof.
  induction s as [|c r IH]; [reflexivity|].
  cbn [has_delimiter rstrip]. intros H. apply orb_false_iff in H as [Hc Hr].
  specialize (IH Hr). destruct (rstrip r) as [|a r'].
  - destruct (is_space c); [reflexivity|]. simpl. now rewrite Hc.
  - remember (String a r') as t. cbn [has_delimiter]. now rewrite Hc, IH.
Qed.

Lemma has_delimiter_strip (s : string) :
  has_delimiter s = false -> has_delimiter (strip s) = false.
Proof. intros H. now apply has_delimiter_rstrip, has_delimiter_lstrip. Qed.

(** *** [title] *)

Lemma title_from_lower (b : bool) (s : string) :
  title_from b (lower s) = title_from b s.
Proof.
  revert b. induction s as [|c r IH]; intros b; [reflexivity|].
  cbn [lower]. rewrite !title_from_cons.
  now rewrite title_char_lower, lower_char_cased, IH.
Qed.

Lemma title_from_idem (b : bool) (s : string) :
  title_from b (title_from b s) = title_from b s.
Proof.
  revert b. induction s as [|c r IH]; intros b; [reflexivity|].
  rewrite !title_from_cons.
  destruct (title_char_kind b c) as [-> _].
  now rewrite title_char_idem, IH.
Qed.

Lemma title_from_empty (b : bool) (s : string) :
  title_from b s = "" <-> s = "".
Proof.
  destruct s as [|c r]; [tauto|]. rewrite title_from_cons.
  split; discriminate.
Qed.

Lemma lstrip_title (s : string) :
  lstrip (title_from false s) = title_from false (lstrip s).
Proof.
  induction s as [|c r IH]; [reflexivity|].
  rewrite title_from_cons. cbn [lstrip].
  destruct (title_char_kind false c) as [_ [-> _]].
  destruct (is_space c) eqn:Ec.
  - pose proof (space_uncased c) as H. rewrite Ec in H. simpl in H.
    now rewrite H.
  - now rewrite title_from_cons.
Qed.

Lemma rstrip_title (b : bool) (s : string) :
  rstrip (title_from b s) = title_from b (rstrip s).
Proof.
  revert b. induction s as [|c r IH]; intros b; [reflexivity|].
  rewrite title_from_cons. cbn [rstrip]. rewrite IH.
  destruct (title_char_kind b c) as [_ [-> _]].
  destruct (rstrip r) as [|a r'] eqn:E.
  - cbn [title_from]. destruct (is_space c); [reflexivity|].
    now rewrite title_from_cons.
  - remember (String a r') as t. rewrite (title_from_cons b c t).
    subst t. now rewrite title_from_cons.
Qed.

(** Trimming and title-casing commute. *)
Lemma strip_title (s : string) : strip (title s) = title (strip s).
Proof. unfold strip, title. now rewrite lstrip_title, rstrip_title. Qed.

Lemma has_delimiter_title (b : bool) (s : string) :
  has_delimiter (title_from b s) = has_delimiter s.
Proof.
  revert b. induction s as [|c r IH]; intros b; [reflexivity|].
  rewrite title_from_cons. cbn [has_delimiter].
  destruct (title_char_kind b c) as [_ [_ ->]]. now rewrite IH.
Qed.

(** No piece of a cell holds a separator once "/" and ";" have become
    "," and the cell is split on ",". *)
Lemma pieces_without_delimiter (item : string) :
  Forall (fun p => has_delimiter p = false)
         (split "," (Spec.map_chars Spec.delimiter_to_comma item)).
Proof.
  induction item as [|c r IH]; [repeat constructor|].
  cbn [Spec.map_chars split].
  destruct (Ascii.eqb (Spec.delimiter_to_comma c) ",") eqn:E.
  - now constructor.
  - assert (Hc : is_delimiter (Spec.delimiter_to_comma c) = false).
    { revert E. unfold Spec.delimiter_to_comma, is_delimiter.
      destruct (Ascii.eqb c "/") eqn:E1; [discriminate|].
      destruct (Ascii.eqb c ";") eqn:E2; [discriminate|].
      simpl. intros ->. now rewrite E1, E2. }
    destruct (split "," (Spec.map_chars Spec.delimiter_to_comma r)) as [|p ps].
    + repeat constructor. simpl. now rewrite Hc.
    + inversion IH as [|? ? Hp Hps]; subst. constructor; [|exact Hps].
      simpl. now rewrite Hc, Hp.
Qed.

Lemma map_chars_without_delimiter (s : string) :
  has_delimiter s = false -> Spec.map_chars Spec.delimiter_to_comma s = s.
Proof.
  induction s as [|c r IH]; simpl; [reflexivity|].
  intros H. apply orb_false_iff in H as [Hc Hr]. rewrite (IH Hr). f_equal.
  unfold is_delimiter in Hc. unfold Spec.delimiter_to_comma.
  apply orb_false_iff in Hc as [Hc Hsemi]. apply orb_false_iff in Hc as [_ Hslash].
  now rewrite Hslash, Hsemi.
Qed.

Lemma comma_free (s : string) :
  has_delimiter s = false -> mem_char "," s = false.
Proof.
  induction s as [|c r IH]; simpl; [reflexivity|].
  intros H. apply orb_false_iff in H as [Hc Hr]. rewrite (IH Hr).
  unfold is_delimiter in Hc.
  apply orb_false_iff in Hc as [Hc _]. apply orb_false_iff in Hc as [-> _].
  reflexivity.
Qed.

End StrLaws.

(** ** Further properties of the script *)

Module ReasonFacts.
Import Pandas PandasFacts Dashboard DashboardFacts PyStr PyStrFacts StrLaws.

Lemma parts_of_pieces (item : string) :
  parts_of item
  = filter truthy
      (map strip (split "," (Spec.map_chars Spec.delimiter_to_comma item))).
Proof. unfold parts_of. now rewrite comprehension_filter, replace_both. Qed.

Lemma truthy_nonempty (s : string) : truthy s = true <-> s <> "".
Proof. destruct s; simpl; split; congruence. Qed.

Lemma parts_of_clean (item : string) : Forall clean_reason (parts_of item).
Proof.
  rewrite parts_of_pieces. apply Forall_forall. intros t Ht.
  apply filter_In in Ht as [Hin Htruthy].
  apply in_map_iff in Hin as [p [<- Hp]].
  pose proof (pieces_without_delimiter item) as Hall.
  rewrite Forall_forall in Hall. specialize (Hall p Hp).
  repeat split.
  - now apply truthy_nonempty.
  - apply strip_idem.
  - now apply has_delimiter_strip.
Qed.

Lemma all_parts_clean (texts : Series) :
  Forall clean_reason (split_reasons texts).
Proof.
  rewrite split_reasons_flat. apply Forall_flat_map.
  apply Forall_forall. intros item _. apply parts_of_clean.
Qed.

(** X1.  Every reason [split_reasons] returns is not empty, has no white
    space at either end and holds no comma, slash or semicolon. *)
Theorem split_reasons_clean (texts : Series) :
  Forall clean_reason (split_reasons texts).
Proof. exact (all_parts_clean texts). Qed.

(** X2.  [split_reasons] works row by row: the reasons of two columns put
    end to end are the reasons of the first followed by those of the
    second, and dropping the missing cells first changes nothing. *)
Theorem split_reasons_rowwise (a b : Series) :
  split_reasons (a ++ b)%list = (split_reasons a ++ split_reasons b)%list
  /\ split_reasons (dropna a) = split_reasons a
  /\ split_reasons (None :: a) = split_reasons a.
Proof.
  rewrite !split_reasons_flat. unfold dropna, astype_str.
  split; [|split].
  - now rewrite filter_app, map_app, flat_map_app.
  - f_equal. f_equal. induction a as [|[x|] t IH]; simpl; [reflexivity| |exact IH].
    now rewrite IH.
  - reflexivity.
Qed.

Lemma clean_cell (t : string) :
  clean_reason t -> title t = t -> Spec.tokens_of_cell (Some t) = [t].
Proof.
  intros [Hne [Htrim Hdel]] Htitle. unfold Spec.tokens_of_cell.
  rewrite (map_chars_without_delimiter t Hdel).
  rewrite (split_without_sep "," t (comma_free t Hdel)). simpl.
  rewrite Htrim. apply truthy_nonempty in Hne. rewrite Hne. simpl.
  now rewrite Htitle.
Qed.

Lemma title_clean (t : string) :
  clean_reason t -> clean_reason (title t) /\ title (title t) = title t.
Proof.
  intros [Hne [Htrim Hdel]]. unfold title at 1 2 3. repeat split.
  - intros H. apply title_from_empty in H. contradiction.
  - fold (title t). now rewrite strip_title, Htrim.
  - now rewrite has_delimiter_title.
  - apply title_from_idem.
Qed.

Lemma reason_tokens_clean (texts : Series) :
  Forall (fun t => clean_reason t /\ title t = t) (reason_tokens texts).
Proof.
  unfold reason_tokens. apply Forall_forall. intros t Ht.
  apply in_map_iff in Ht as [r [<- Hr]].
  pose proof (all_parts_clean texts) as Hall.
  rewrite Forall_forall in Hall. now apply title_clean, Hall.
Qed.

Lemma reason_tokens_fixed (l : list string) :
  Forall (fun t => clean_reason t /\ title t = t) l ->
  reason_tokens (map Some l) = l.
Proof.
  induction 1 as [|t l [Hc Ht] _ IH]; [reflexivity|].
  cbn [map]. rewrite reason_tokens_cons, IH, (clean_cell t Hc Ht). reflexivity.
Qed.

(** X3.  On a column of ASCII text tokenizing is idempotent: feeding the
    title-cased reasons back, one reason per cell, returns the same
    reasons. *)
Theorem reason_tokens_idempotent (texts : Series)
        (Hascii : ascii_column texts) :
  reason_tokens (map Some (reason_tokens texts)) = reason_tokens texts.
Proof. apply reason_tokens_fixed, reason_tokens_clean. Qed.

Lemma reason_tokens_idempotent_witness :
  reason_tokens
    (map Some (reason_tokens [Some "high cost/Safety; it's far "; None]))
  = reason_tokens [Some "high cost/Safety; it's far "; None].
Proof.
  apply reason_tokens_idempotent.
  repeat constructor.
Defined.

End ReasonFacts.

Module FreqFacts.
Import Pandas PandasFacts Dashboard DashboardFacts PyStr PyStrFacts StrLaws
  Samples.

Section InsertionSort.
Context {A : Type} (before : A -> A -> bool) (R : A -> A -> Prop).
Hypothesis before_R : forall a b, before a b = true -> R a b.
Hypothesis not_before_R : forall a b, before a b = false -> R b a.

Lemma insert_sorted (a : A) (l : list A) :
  Sorted R l -> Sorted R (insert before a l).
Proof.
  induction l as [|b t IH]; intros Hs; simpl.
  - repeat constructor.
  - destruct (before a b) eqn:E.
    + constructor; [exact Hs | constructor; now apply before_R].
    + inversion Hs as [|? ? Ht Hhd]; subst.
      constructor; [now apply IH|].
      destruct t as [|c t']; simpl.
      * constructor. now apply not_before_R.
      * destruct (before a c); constructor.
        -- now apply not_before_R.
        -- now inversion Hhd.
Qed.

Lemma sort_sorted (l : list A) : Sorted R (sort before l).
Proof.
  induction l as [|a t IH]; simpl; [constructor | now apply insert_sorted].
Qed.
End InsertionSort.

Lemma bump_positive (k : string) (tbl : freq) :
  Forall (fun kn => 1 <= snd kn) tbl ->
  Forall (fun kn => 1 <= snd kn) (bump k tbl).
Proof.
  induction 1 as [|[k' n] t Hn Ht IH]; simpl.
  - repeat constructor.
  - destruct (String.eqb k k'); constructor; simpl in *;
      solve [lia | assumption].
Qed.

Lemma tally_from_positive (s : Series) (tbl : freq) :
  Forall (fun kn => 1 <= snd kn) tbl ->
  Forall (fun kn => 1 <= snd kn) (fold_left tally_step s tbl).
Proof.
  revert tbl. induction s as [|[x|] t IH]; intros tbl H; simpl; auto.
  now apply IH, bump_positive.
Qed.

Lemma tally_from_keys (k : string) (s : Series) (tbl : freq) :
  In k (map fst (fold_left tally_step s tbl))
  <-> In k (map fst tbl) \/ In (Some k) s.
Proof.
  revert tbl. induction s as [|[x|] t IH]; intros tbl; simpl.
  - tauto.
  - rewrite IH, keys_bump. split.
    + intros [[->|H]|H]; auto.
    + intros [H|[E|H]]; auto. injection E as ->. auto.
  - rewrite IH. split; [tauto|]. intros [H|[E|H]]; auto. discriminate E.
Qed.

(** [value_counts] returns a ranked table whose labels are exactly the
    values that occur. *)
Lemma value_counts_ranked (s : Series) :
  ranked (value_counts s)
  /\ forall k, In k (map fst (value_counts s)) <-> In (Some k) s.
Proof.
  unfold ranked, value_counts.
  set (before := fun x y : string * nat => snd y <=? snd x).
  pose proof (sort_perm before (tally s)) as Hp.
  split; [split; [|split]|].
  - apply Sorted_StronglySorted.
    + intros a b c Hab Hbc. lia.
    + apply (sort_sorted before); unfold before; intros a b H.
      * now apply Nat.leb_le.
      * apply Nat.leb_gt in H. lia.
  - eapply Permutation_NoDup.
    + apply Permutation_map. symmetry. exact Hp.
    + apply (tally_from_NoDup s []). constructor.
  - eapply Permutation_Forall; [symmetry; exact Hp|].
    apply (tally_from_positive s []). constructor.
  - intros k. split; intros H.
    + apply (Permutation_in _ (Permutation_map fst Hp)) in H.
      apply (tally_from_keys k s []) in H. destruct H as [[]|H]. exact H.
    + apply (Permutation_in _ (Permutation_map fst (Permutation_sym Hp))).
      apply (tally_from_keys k s []). now right.
Qed.

(** X4.  The frequency tables the page charts -- travel modes, carpool
    answers and the two tables of reasons -- list their buckets by
    descending count, hold each label once and hold no empty bucket. *)
Theorem frequency_tables_ranked (df : DataFrame) (tm cw : Series)
        (Htm : getitem df "Travel Mode" = Ok tm)
        (Hcw : getitem df "Carpool Willingness" = Ok cw) :
  exists mc pc,
    mode_counts df = Ok mc /\ pool_counts df = Ok pc
    /\ ranked mc /\ ranked pc
    /\ ranked (reasons_df df) /\ ranked (reasons_carpool_df df).
Proof.
  unfold mode_counts, pool_counts, reasons_df, reasons_carpool_df, reasons_df_of.
  rewrite Htm, Hcw. cbn [bind]. do 2 eexists.
  do 2 (split; [reflexivity|]).
  repeat split; apply value_counts_ranked.
Qed.

Lemma frequency_tables_ranked_witness :
  exists mc pc,
    mode_counts four_answers = Ok mc /\ pool_counts four_answers = Ok pc
    /\ ranked mc /\ ranked pc
    /\ ranked (reasons_df four_answers)
    /\ ranked (reasons_carpool_df four_answers).
Proof.
  exact (frequency_tables_ranked four_answers
           [Some "Own Car"; Some "Bus"; Some "Bike"; Some "Carpool"]
           [Some "Yes"; Some "No"; Some "Maybe"; Some "yes"] eq_refl eq_refl).
Defined.

(** *** Headline figures against the charts *)

Lemma counted_bump (f : string -> bool) (k : string) (tbl : freq) :
  counted f (bump k tbl) = counted f tbl + (if f k then 1 else 0).
Proof.
  unfold counted. induction tbl as [|[k' n] t IH]; simpl.
  - destruct (f k); reflexivity.
  - destruct (String.eqb_spec k k') as [->|Hne]; simpl.
    + destruct (f k'); simpl; lia.
    + destruct (f k'); simpl; rewrite IH; lia.
Qed.

Lemma counted_perm (f : string -> bool) (t t' : freq) :
  Permutation t t' -> counted f t = counted f t'.
Proof.
  intros Hp. unfold counted.
  induction Hp as [|[k n] t t' _ IH|[k n] [k' m] t|t t' t'' _ IH1 _ IH2];
    simpl in *; try lia.
  - destruct (f k); simpl; lia.
  - destruct (f k), (f k'); simpl; lia.
Qed.

(** The cells of a column that hold a value satisfying [f]. *)
Lemma counted_tally (f : string -> bool) (s : Series) (tbl : freq) :
  counted f (fold_left tally_step s tbl)
  = counted f tbl
    + length (filter (fun c => match c with Some k => f k | None => false end) s).
Proof.
  revert tbl. induction s as [|[x|] t IH]; intros tbl; simpl; [lia| |apply IH].
  rewrite IH, counted_bump. destruct (f x); simpl; lia.
Qed.

Lemma counted_value_counts (f : string -> bool) (s : Series) :
  counted f (value_counts s)
  = length (filter (fun c => match c with Some k => f k | None => false end) s).
Proof.
  unfold value_counts. rewrite (counted_perm f _ (tally s)) by apply sort_perm.
  exact (counted_tally f s []).
Qed.

Lemma mask_sum_cons (b : bool) (mask : list bool) :
  mask_sum (b :: mask) = (if b then 1 else 0) + mask_sum mask.
Proof.
  unfold mask_sum. cbn [count_occ].
  destruct b, (bool_dec _ true) as [H|H]; try reflexivity;
    [exfalso; now apply H | discriminate H].
Qed.

Lemma mask_sum_displayed (g : cell -> bool) (col : Series) :
  g None = g (Some "(Missing)") ->
  mask_sum (map g col)
  = length (filter (fun c => match c with Some k => g (Some k) | None => false end)
                   (fillna "(Missing)" col)).
Proof.
  intros Hg. unfold fillna.
  induction col as [|c t IH]; [reflexivity|].
  cbn [map]. rewrite mask_sum_cons, IH.
  destruct c as [x|]; cbn [filter].
  - destruct (g (Some x)); reflexivity.
  - rewrite Hg. destruct (g (Some "(Missing)")); reflexivity.
Qed.

(** X5.  The headline counts agree with the charts: the rows counted as
    private-vehicle users are the rows in the travel-mode buckets whose
    label matches a keyword, and the rows counted as open to carpooling are
    the rows in the carpool buckets whose label lower-cases to "yes" or
    "maybe"; the "(Missing)" bucket belongs to neither. *)
Theorem headline_counts_match_charts (df : DataFrame) (tm cw : Series)
        (Htm : getitem df "Travel Mode" = Ok tm)
        (Hcw : getitem df "Carpool Willingness" = Ok cw) :
  exists pm om mc pc,
    private_mask df = Ok pm /\ open_to_carpool_mask df = Ok om
    /\ mode_counts df = Ok mc /\ pool_counts df = Ok pc
    /\ mask_sum pm = counted (fun k => is_private (Some k)) mc
    /\ mask_sum om = counted (fun k => is_open (Some k)) pc
    /\ is_private (Some "(Missing)") = false
    /\ is_open (Some "(Missing)") = false.
Proof.
  rewrite (private_mask_rows _ _ Htm), (open_to_carpool_mask_rows _ _ Hcw).
  unfold mode_counts, pool_counts. rewrite Htm, Hcw. cbn [bind].
  do 4 eexists. do 4 (split; [reflexivity|]).
  rewrite !counted_value_counts.
  split; [|split; [|split; reflexivity]]; now apply mask_sum_displayed.
Qed.

Lemma headline_counts_match_charts_witness :
  exists pm om mc pc,
    private_mask with_missing = Ok pm /\ open_to_carpool_mask with_missing = Ok om
    /\ mode_counts with_missing = Ok mc /\ pool_counts with_missing = Ok pc
    /\ mask_sum pm = counted (fun k => is_private (Some k)) mc
    /\ mask_sum om = counted (fun k => is_open (Some k)) pc
    /\ is_private (Some "(Missing)") = false
    /\ is_open (Some "(Missing)") = false.
Proof.
  exact (headline_counts_match_charts with_missing
           [Some "Own Car"; None; Some "Bike"]
           [Some "Yes"; None; Some "Maybe"] eq_refl eq_refl).
Defined.

(** *** The tables of reasons *)

Lemma lower_title_char (b : bool) (c : ascii) :
  lower_char (title_char b c) = lower_char c.
Proof. destruct b, c as [[] [] [] [] [] [] [] []]; reflexivity. Qed.

Lemma lower_title_from (b : bool) (s : string) :
  lower (title_from b s) = lower s.
Proof.
  revert b. induction s as [|c r IH]; intros b; [reflexivity|].
  rewrite title_from_cons. cbn [lower]. now rewrite lower_title_char, IH.
Qed.

(** Two reasons get the same title-cased label exactly when they differ
    by letter case only. *)
Lemma title_eq_iff (r r' : string) : title r = title r' <-> lower r = lower r'.
Proof.
  unfold title. split; intros H.
  - rewrite <- (lower_title_from false r), <- (lower_title_from false r').
    now rewrite H.
  - rewrite <- (title_from_lower false r), <- (title_from_lower false r').
    now rewrite H.
Qed.

Lemma count_occ_labels (l : list string) (r : string) :
  count_occ cell_dec (map (fun t => Some (title t)) l) (Some (title r))
  = count_occ string_dec (map lower l) (lower r).
Proof.
  induction l as [|a t IH]; cbn [map count_occ]; [reflexivity|].
  rewrite IH.
  destruct (cell_dec (Some (title a)) (Some (title r))) as [E|N],
           (string_dec (lower a) (lower r)) as [E'|N']; try reflexivity.
  - exfalso. apply N'. apply title_eq_iff. now injection E.
  - exfalso. apply N. f_equal. now apply title_eq_iff.
Qed.

Lemma missing_of_values {A : Type} (f : A -> string) (l : list A) :
  missing (map (fun t => Some (f t)) l) = 0.
Proof.
  unfold missing. induction l as [|a t IH]; cbn [map count_occ]; [reflexivity|].
  destruct (cell_dec (Some (f a)) None) as [E|_]; [discriminate E | exact IH].
Qed.

Lemma reasons_df_counts (column : string) (df : DataFrame) (r : string) :
  total_count (reasons_df_of column df) = length (reasons_list_of column df)
  /\ count_of (title r) (reasons_df_of column df)
     = count_occ string_dec (map lower (reasons_list_of column df)) (lower r).
Proof.
  unfold reasons_df_of. split.
  - pose proof (value_counts_total
                  (map (fun t => Some (title t)) (reasons_list_of column df))) as H.
    rewrite missing_of_values, length_map in H. lia.
  - rewrite value_counts_count. apply count_occ_labels.
Qed.

(** X6.  Each table of reasons counts every reason once; and when the
    reasons are ASCII text, the bucket of an ASCII reason counts all the
    reasons that equal it up to letter case. *)
Theorem reasons_counted_ignoring_case (df : DataFrame) (r : string) :
  total_count (reasons_df df) = length (reasons_list df)
  /\ total_count (reasons_carpool_df df) = length (reasons_carpool_list df)
  /\ (is_ascii r = true ->
      Forall (fun t => is_ascii t = true) (reasons_list df) ->
      count_of (title r) (reasons_df df)
      = count_occ string_dec (map lower (reasons_list df)) (lower r))
  /\ (is_ascii r = true ->
      Forall (fun t => is_ascii t = true) (reasons_carpool_list df) ->
      count_of (title r) (reasons_carpool_df df)
      = count_occ string_dec (map lower (reasons_carpool_list df)) (lower r)).
Proof.
  split; [apply reasons_df_counts; exact r|].
  split; [apply reasons_df_counts; exact r|].
  split; intros _ _; apply reasons_df_counts.
Qed.

Lemma reasons_counted_ignoring_case_witness :
  count_of (title "HIGH cost") (reasons_df with_reasons)
  = count_occ string_dec (map lower (reasons_list with_reasons))
              (lower "HIGH cost")
  /\ count_of (title "inflexible schedule") (reasons_carpool_df with_reasons)
     = count_occ string_dec (map lower (reasons_carpool_list with_reasons))
                 (lower "inflexible schedule").
Proof.
  split.
  - apply (proj1 (proj2 (proj2
             (reasons_counted_ignoring_case with_reasons "HIGH cost"))));
      [reflexivity | vm_compute; repeat constructor].
  - apply (proj2 (proj2 (proj2
             (reasons_counted_ignoring_case with_reasons "inflexible schedule"))));
      [reflexivity | vm_compute; repeat constructor].
Defined.

(** *** What sections 4 and 5 show *)

Lemma reasons_df_rows (column : string) (df : DataFrame) :
  reasons_list_of column df = [] <-> reasons_df_of column df = [].
Proof.
  destruct (reasons_df_counts column df "") as [Htotal _]. split; intros H.
  - unfold reasons_df_of. now rewrite H.
  - rewrite H in Htotal. simpl in Htotal. symmetry in Htotal.
    now apply length_zero_iff_nil.
Qed.

Lemma head_outranks (n : nat) (tbl : freq) :
  ranked tbl ->
  forall a b, In a (head n tbl) -> In b (skipn n tbl) -> snd b <= snd a.
Proof.
  intros [Hs _]. unfold head. rewrite <- (firstn_skipn n tbl) in Hs.
  revert Hs. generalize (firstn n tbl) (skipn n tbl). intros shown.
  induction shown as [|c t IH]; intros hidden Hs a b Ha Hb; [contradiction|].
  simpl in Hs. inversion Hs as [|? ? Ht Hall]; subst.
  destruct Ha as [->|Ha].
  - rewrite Forall_forall in Hall. apply Hall, in_or_app. now right.
  - now apply (IH hidden Ht).
Qed.

Lemma nunique_labels (tbl : freq) :
  NoDup (map fst tbl) -> nunique (map fst tbl) = length tbl.
Proof.
  intros H. unfold nunique. rewrite (nodup_fixed_point string_dec) by exact H.
  apply length_map.
Qed.

(** X7.  Section 4 shows a note exactly when no reason was recorded, and
    otherwise a bar chart of at most 15 buckets, the first of the ranked
    table: no bucket left out has a higher count than a bucket shown. *)
Theorem section4_top_reasons (df : DataFrame) :
  (reasons_list df = [] ->
   section4 df
   = Info "No reasons recorded for not using Ola/Uber/Rapido frequently.")
  /\ (reasons_list df <> [] ->
      section4 df = BarChart (head 15 (reasons_df df))
      /\ 1 <= length (head 15 (reasons_df df)))
  /\ length (head 15 (reasons_df df)) <= 15
  /\ (forall a b, In a (head 15 (reasons_df df)) ->
                  In b (skipn 15 (reasons_df df)) -> snd b <= snd a).
Proof.
  unfold section4, reasons_list, reasons_df.
  set (column := "Reason for not using Ola/Uber/Rapido frequently").
  pose proof (reasons_df_rows column df) as Hrows.
  split; [|split; [|split]].
  - intros H. apply Hrows in H. now rewrite H.
  - intros H. destruct (reasons_df_of column df) as [|kn t] eqn:E.
    + exfalso. apply H. now apply Hrows.
    + split; [reflexivity | simpl; lia].
  - unfold head. rewrite length_firstn. lia.
  - apply head_outranks. unfold reasons_df_of. apply value_counts_ranked.
Qed.

Lemma section4_top_reasons_witness :
  section4 with_reasons = BarChart (head 15 (reasons_df with_reasons))
  /\ 1 <= length (head 15 (reasons_df with_reasons)).
Proof.
  apply (proj1 (proj2 (section4_top_reasons with_reasons))).
  discriminate.
Defined.

(** X8.  Section 5 shows a note when no reason was recorded, a bar chart
    when all reasons fall into one bucket, and with two or more buckets a
    treemap, or the bar chart if drawing the treemap raises; each chart
    shows the first 50 buckets. *)
Theorem section5_chart_choice (treemap_raises : freq -> bool) (df : DataFrame) :
  (reasons_carpool_list df = [] ->
   section5 treemap_raises df
   = Info "No reasons recorded for not preferring carpooling.")
  /\ (length (reasons_carpool_df df) = 1 ->
      section5 treemap_raises df = BarChart (head 50 (reasons_carpool_df df)))
  /\ (2 <= length (reasons_carpool_df df) ->
      section5 treemap_raises df
      = if treemap_raises (head 50 (reasons_carpool_df df))
        then BarChart (head 50 (reasons_carpool_df df))
        else Treemap (head 50 (reasons_carpool_df df))).
Proof.
  unfold section5, reasons_carpool_list, reasons_carpool_df.
  set (column := "Reason for not preferring carpooling").
  pose proof (reasons_df_rows column df) as Hrows.
  assert (Hn : nunique (map fst (reasons_df_of column df))
               = length (reasons_df_of column df)).
  { apply nunique_labels. unfold reasons_df_of. apply value_counts_ranked. }
  rewrite Hn. split; [|split]; intros H.
  - apply Hrows in H. now rewrite H.
  - rewrite H. destruct (reasons_df_of column df); [discriminate H | reflexivity].
  - destruct (Nat.leb_spec 2 (length (reasons_df_of column df))) as [_|Hlt];
      [|lia].
    destruct (reasons_df_of column df); [simpl in H; lia | reflexivity].
Qed.

Lemma section5_chart_choice_witness :
  section5 (fun _ => false) with_reasons
  = Treemap (head 50 (reasons_carpool_df with_reasons)).
Proof.
  apply (proj2 (proj2 (section5_chart_choice (fun _ => false) with_reasons))).
  vm_compute. lia.
Defined.

End FreqFacts.

Module TableFacts.
Import Pandas PandasFacts Dashboard DashboardFacts PyStr PyStrFacts StrLaws
  FreqFacts Samples.

(** *** Required columns *)

Lemma getitem_absent (df : DataFrame) (c : string) :
  ~ In c (columns df) -> getitem df c = Raise (KeyError c).
Proof. intros H. apply get_absent in H. unfold getitem. now rewrite H. Qed.

(** X9.  A table without one of the three required columns makes every
    figure read from that column raise [KeyError] with the column's name,
    and the cross-tabulation raise as well; nothing falls back to an empty
    result as the optional reason columns do. *)
Theorem missing_required_column_raises (df : DataFrame) :
  (~ In "Travel Mode" (columns df) ->
   private_mask df = Raise (KeyError "Travel Mode")
   /\ pct_private df = Raise (KeyError "Travel Mode")
   /\ mode_counts df = Raise (KeyError "Travel Mode")
   /\ exists e, ct df = Raise e /\ ct_pct df = Raise e)
  /\ (~ In "Carpool Willingness" (columns df) ->
      open_to_carpool_mask df = Raise (KeyError "Carpool Willingness")
      /\ pct_open_carpool df = Raise (KeyError "Carpool Willingness")
      /\ pool_counts df = Raise (KeyError "Carpool Willingness"))
  /\ (~ In "Cab Availability Issues" (columns df) ->
      cab_issue_mask df = Raise (KeyError "Cab Availability Issues")
      /\ pct_cab_issues df = Raise (KeyError "Cab Availability Issues")
      /\ exists e, ct df = Raise e /\ ct_pct df = Raise e).
Proof.
  unfold pct_private, private_mask, travel_mode_lower, mode_counts,
    pct_open_carpool, open_to_carpool_mask, carpool_lower, pool_counts,
    pct_cab_issues, cab_issue_mask, cab_issue_lower, ct_pct, ct.
  split; [|split]; intros H; apply getitem_absent in H; rewrite H; cbn [bind].
  - repeat split. eexists. split; reflexivity.
  - repeat split.
  - repeat split.
    destruct (getitem df "Travel Mode"); cbn [bind]; eexists; split; reflexivity.
Qed.

Lemma missing_required_column_raises_witness :
  (private_mask (mkDataFrame ["Name"] [[Some "A"]])
   = Raise (KeyError "Travel Mode")
   /\ pct_private (mkDataFrame ["Name"] [[Some "A"]])
      = Raise (KeyError "Travel Mode")
   /\ mode_counts (mkDataFrame ["Name"] [[Some "A"]])
      = Raise (KeyError "Travel Mode")
   /\ exists e, ct (mkDataFrame ["Name"] [[Some "A"]]) = Raise e
                /\ ct_pct (mkDataFrame ["Name"] [[Some "A"]]) = Raise e).
Proof.
  apply (proj1 (missing_required_column_raises (mkDataFrame ["Name"] [[Some "A"]]))).
  simpl. intuition discriminate.
Defined.

(** X10.  Cab-availability mask: a row is true exactly when its answer,
    lower-cased and with a missing cell read as the empty string, is
    exactly "yes" or "sometimes". *)
Theorem cab_issue_exact (df : DataFrame) (ca : Series)
        (Hca : getitem df "Cab Availability Issues" = Ok ca) :
  exists mask,
    cab_issue_mask df = Ok mask
    /\ Forall2 (fun c b =>
                  b = true <-> lowered c = "yes" \/ lowered c = "sometimes")
               ca mask.
Proof.
  exists (map is_issue ca). split; [now apply cab_issue_mask_rows|].
  apply Forall2_map_self. intros c. unfold is_issue. simpl.
  rewrite !orb_true_iff, !String.eqb_eq. intuition discriminate.
Qed.

Lemma cab_issue_exact_witness :
  exists mask,
    cab_issue_mask three_modes = Ok mask
    /\ Forall2 (fun c b =>
                  b = true <-> lowered c = "yes" \/ lowered c = "sometimes")
               [Some "No"; Some "Yes"; Some "Sometimes"] mask.
Proof.
  exact (cab_issue_exact three_modes
           [Some "No"; Some "Yes"; Some "Sometimes"] eq_refl).
Defined.

(** *** The cross-tabulation *)

Lemma observations_displayed (a b : Series) :
  length a = length b ->
  map fst (observations (fillna "(Missing)" a) (fillna "(Missing)" b))
  = map displayed a
  /\ map snd (observations (fillna "(Missing)" a) (fillna "(Missing)" b))
     = map displayed b
  /\ length (observations (fillna "(Missing)" a) (fillna "(Missing)" b))
     = length a.
Proof.
  unfold fillna. revert b.
  induction a as [|x a IH]; intros [|y b] Hlen; try discriminate Hlen.
  - repeat split.
  - injection Hlen as Hlen. destruct (IH b Hlen) as [Hf [Hs Hl]].
    destruct x, y; simpl; rewrite Hf, Hs, Hl; repeat split.
Qed.

(** The rows of a cross-tabulation share the observations out: the row
    totals add up to the number of observations. *)
Lemma index_total (obs : list (string * string)) (idx : list string) :
  NoDup idx ->
  (forall p, In p obs -> In (fst p) idx) ->
  list_sum (map (fun r => length (filter (fun p => String.eqb (fst p) r) obs)) idx)
  = length obs.
Proof.
  intros Hnd. induction obs as [|[a b] t IH]; intros Hcov.
  - simpl. apply list_sum_map_zero.
  - assert (Ha : In a idx) by (apply (Hcov (a, b)); now left).
    assert (Ht : forall p, In p t -> In (fst p) idx)
      by (intros p Hp; apply Hcov; now right).
    specialize (IH Ht).
    rewrite (map_ext _ (fun r => hit a r
                                 + length (filter (fun p => String.eqb (fst p) r) t))).
    + rewrite list_sum_map_add, IH, (hit_once a idx Hnd Ha). reflexivity.
    + intros r. unfold hit. simpl. destruct (String.eqb a r); reflexivity.
Qed.

Lemma labels_sorted (l : list string) :
  Sorted (fun a b => String.leb a b = true) (labels l).
Proof.
  apply (sort_sorted String.leb); [tauto|].
  intros a b H. destruct (String.leb_total b a) as [E|E]; [exact E|].
  congruence.
Qed.

Lemma crosstab_accounts (a b : Series) :
  let obs := observations a b in
  let c := crosstab a b in
  grand_total c = length obs
  /\ length (ct_values c) = length (ct_index c)
  /\ Forall (fun row => length row = length (ct_columns c)) (ct_values c).
Proof.
  cbv zeta. unfold grand_total, crosstab. cbn [ct_values ct_index ct_columns].
  set (obs := observations a b).
  split; [|split].
  - rewrite map_map.
    rewrite (map_ext_in _ (fun r => length (filter (fun p => String.eqb (fst p) r) obs))).
    + apply index_total; [apply labels_NoDup|].
      intros p Hp. apply labels_In. now apply in_map.
    + intros r _.
      apply (row_total r obs _ (labels_NoDup _) (observation_covered obs)).
  - apply length_map.
  - apply Forall_forall. intros row Hrow.
    apply in_map_iff in Hrow as [r [<- _]]. apply length_map.
Qed.

(** X11.  The cross-tabulation of travel mode by cab-availability answer
    counts every row of the table once; its rows are the travel modes that
    occur and its columns the answers that occur, "(Missing)" standing for
    a missing cell, each once and in sorted order. *)
Theorem ct_counts_every_row (df : DataFrame) (tm ca : Series)
        (Htm : getitem df "Travel Mode" = Ok tm)
        (Hca : getitem df "Cab Availability Issues" = Ok ca) :
  exists c,
    ct df = Ok c
    /\ grand_total c = total_responses df
    /\ (forall r, In r (ct_index c) <-> In r (map displayed tm))
    /\ (forall k, In k (ct_columns c) <-> In k (map displayed ca))
    /\ NoDup (ct_index c) /\ NoDup (ct_columns c)
    /\ Sorted (fun a b => String.leb a b = true) (ct_index c)
    /\ Sorted (fun a b => String.leb a b = true) (ct_columns c)
    /\ length (ct_values c) = length (ct_index c)
    /\ Forall (fun row => length row = length (ct_columns c)) (ct_values c).
Proof.
  pose proof (getitem_length _ _ _ Htm) as Ltm.
  pose proof (getitem_length _ _ _ Hca) as Lca.
  assert (Hlen : length tm = length ca) by congruence.
  destruct (observations_displayed tm ca Hlen) as [Hf [Hs Hl]].
  destruct (crosstab_accounts (fillna "(Missing)" tm) (fillna "(Missing)" ca))
    as [Hg [Hrows Hcols]].
  unfold ct. rewrite Htm, Hca. cbn [bind]. eexists. split; [reflexivity|].
  split; [unfold total_responses; rewrite Hg, Hl; exact Ltm|].
  unfold crosstab in *. cbn [ct_index ct_columns ct_values] in *.
  rewrite Hf, Hs in *.
  split; [intros r; apply labels_In|].
  split; [intros k; apply labels_In|].
  split; [apply labels_NoDup|]. split; [apply labels_NoDup|].
  split; [apply labels_sorted|]. split; [apply labels_sorted|].
  split; assumption.
Qed.

Lemma ct_counts_every_row_witness :
  exists c,
    ct with_missing = Ok c
    /\ grand_total c = total_responses with_missing
    /\ (forall r, In r (ct_index c)
                  <-> In r (map displayed [Some "Own Car"; None; Some "Bike"]))
    /\ (forall k, In k (ct_columns c)
                  <-> In k (map displayed [Some "Sometimes"; None; Some "No"]))
    /\ NoDup (ct_index c) /\ NoDup (ct_columns c)
    /\ Sorted (fun a b => String.leb a b = true) (ct_index c)
    /\ Sorted (fun a b => String.leb a b = true) (ct_columns c)
    /\ length (ct_values c) = length (ct_index c)
    /\ Forall (fun row => length row = length (ct_columns c)) (ct_values c).
Proof.
  exact (ct_counts_every_row with_missing
           [Some "Own Car"; None; Some "Bike"]
           [Some "Sometimes"; None; Some "No"] eq_refl eq_refl).
Defined.

(** *** The percentage view and the stacked bars *)

Lemma normalised_values (a b : Series) :
  let obs := observations a b in
  let c := crosstab a b in
  ct_values (mul_scalar (div_axis0 c (sum_axis1 c)) 100)
  = map (fun r =>
           map (fun v => num_mul (np_div v (list_sum (cells_of obs (ct_columns c) r))) 100)
               (cells_of obs (ct_columns c) r))
        (ct_index c).
Proof.
  cbv zeta. unfold crosstab, sum_axis1, mul_scalar, div_axis0.
  cbn [ct_values ct_index ct_columns].
  set (obs := observations a b). set (cols := labels (map snd obs)).
  fold (cells_of obs cols).
  rewrite (map_map (cells_of obs cols) (fun row => list_sum row)).
  rewrite (div_rows_map (cells_of obs cols)
             (fun r => list_sum (cells_of obs cols r))), map_map.
  apply map_ext. intros r. now rewrite map_map.
Qed.

Lemma row_positive (a b : Series) (r : string) :
  let obs := observations a b in
  let c := crosstab a b in
  In r (ct_index c) -> 1 <= list_sum (cells_of obs (ct_columns c) r).
Proof.
  cbv zeta. unfold crosstab, cells_of. cbn [ct_index ct_columns]. intros Hr.
  rewrite (row_total r _ _ (labels_NoDup _) (observation_covered _)).
  apply row_observed. now apply (labels_In r).
Qed.

Lemma le_list_sum (n : nat) (l : list nat) : In n l -> n <= list_sum l.
Proof.
  induction l as [|m t IH]; simpl; [contradiction|].
  intros [->|H]; [lia | specialize (IH H); lia].
Qed.

Lemma share_percentage (v T : nat) :
  v <= T -> 0 < T -> Spec.percentage (num_mul (np_div v T) 100).
Proof.
  intros Hle HT. rewrite np_div_pos by exact HT. simpl.
  assert (HQ : (0 < of_nat T)%Q) by now apply of_nat_pos.
  split.
  - apply Qmult_le_0_compat; [|discriminate].
    apply Qle_shift_div_l; [exact HQ|].
    rewrite Qmult_0_l. change 0%Q with (of_nat 0). apply of_nat_le. lia.
  - setoid_replace 100%Q with (1 * 100)%Q at 2 by reflexivity.
    apply Qmult_le_compat_r; [|discriminate].
    apply Qle_shift_div_r; [exact HQ|].
    rewrite Qmult_1_l. now apply of_nat_le.
Qed.

(** X12.  Every cell of the row-normalised cross-tabulation is a finite
    number between 0 and 100. *)
Theorem ct_pct_cells_in_range (df : DataFrame) (tm ca : Series)
        (Htm : getitem df "Travel Mode" = Ok tm)
        (Hca : getitem df "Cab Availability Issues" = Ok ca) :
  exists p,
    ct_pct df = Ok p
    /\ Forall (fun row => Forall Spec.percentage row) (ct_values p).
Proof.
  unfold ct_pct, ct. rewrite Htm, Hca. cbn [bind]. eexists.
  split; [reflexivity|].
  rewrite normalised_values. apply Forall_forall. intros row Hrow.
  apply in_map_iff in Hrow as [r [<- Hr]].
  apply Forall_forall. intros v Hv. apply in_map_iff in Hv as [n [<- Hn]].
  pose proof (le_list_sum n _ Hn) as Hle.
  pose proof (row_positive _ _ r Hr) as Hpos. cbv zeta in Hpos.
  apply share_percentage; lia.
Qed.

Lemma ct_pct_cells_in_range_witness :
  exists p,
    ct_pct with_missing = Ok p
    /\ Forall (fun row => Forall Spec.percentage row) (ct_values p).
Proof.
  exact (ct_pct_cells_in_range with_missing
           [Some "Own Car"; None; Some "Bike"]
           [Some "Sometimes"; None; Some "No"] eq_refl eq_refl).
Defined.

Lemma position_present (c : string) (names : list string) :
  In c names -> exists j, position c names = Some j.
Proof.
  intros H. destruct (position c names) as [j|] eqn:E; [now exists j|].
  apply position_absent in E. contradiction.
Qed.

Lemma nth_map_default {A B : Type} (f : A -> B) (l : list A) (i : nat)
      (d : A) (d' : B) :
  i < length l -> nth i (map f l) d' = f (nth i l d).
Proof.
  revert i. induction l as [|a t IH]; intros [|i] H; simpl in *; try lia.
  - reflexivity.
  - apply IH. lia.
Qed.

(** Reading a row label by label gives the row back. *)
Lemma row_by_label {V : Type} (d : V) (cols : list string) (row : list V) :
  NoDup cols -> length row = length cols ->
  map (fun col => match position col cols with
                  | Some j => nth j row d
                  | None => d
                  end) cols
  = row.
Proof.
  intros Hnd. revert row.
  induction Hnd as [|c cs Hnotin Hnd IH]; intros [|v vs] Hlen;
    try discriminate Hlen; [reflexivity|].
  injection Hlen as Hlen. cbn [map position]. rewrite String.eqb_refl.
  f_equal.
  transitivity (map (fun col => match position col cs with
                                | Some j => nth j vs d
                                | None => d
                                end) cs); [|now apply IH].
  apply map_ext_in. intros col Hcol.
  destruct (String.eqb_spec col c) as [->|_]; [contradiction|].
  destruct (position col cs); reflexivity.
Qed.

(** *** Loading *)

Lemma position_map (f : string -> string) (n : string) (names : list string) :
  NoDup (map f names) -> In n names ->
  position (f n) (map f names) = position n names.
Proof.
  induction names as [|m ms IH]; intros Hnd Hin; [contradiction|].
  cbn [map position]. inversion Hnd as [|? ? Hnotin Hnd']; subst.
  destruct (String.eqb_spec n m) as [->|Hne].
  - now rewrite String.eqb_refl.
  - destruct Hin as [E|Hin]; [congruence|].
    destruct (String.eqb_spec (f n) (f m)) as [E|_].
    + exfalso. apply Hnotin. rewrite <- E. now apply in_map.
    + now rewrite IH.
Qed.

Lemma observations_combine (a b : Series) :
  observations (fillna "(Missing)" a) (fillna "(Missing)" b)
  = combine (map displayed a) (map displayed b).
Proof.
  unfold fillna. revert b.
  induction a as [|x a IH]; intros [|y b]; try reflexivity.
  - now destruct x.
  - destruct x, y; simpl; now rewrite IH.
Qed.

Lemma position_nth (cols : list string) (j : nat) :
  NoDup cols -> j < length cols -> position (nth j cols "") cols = Some j.
Proof.
  intros Hnd. revert j.
  induction Hnd as [|c cs Hnotin Hnd IH]; intros [|j] Hj; simpl in Hj; try lia.
  - simpl. now rewrite String.eqb_refl.
  - cbn [nth position].
    destruct (String.eqb_spec (nth j cs "") c) as [E|_].
    + exfalso. apply Hnotin. rewrite <- E. apply nth_In. lia.
    + rewrite IH by lia. reflexivity.
Qed.

(** Row [i] of a cross-tabulation and of its percentage view, cell by
    cell. *)
Lemma normalised_row (a b : Series) (i : nat) :
  let obs := observations a b in
  let c := crosstab a b in
  let p := mul_scalar (div_axis0 c (sum_axis1 c)) 100 in
  i < length (ct_index c) ->
  let counts := nth i (ct_values c) [] in
  let row := nth i (ct_values p) [] in
  counts = cells_of obs (ct_columns c) (nth i (ct_index c) "")
  /\ 1 <= list_sum counts
  /\ row = map (fun v => Fin (of_nat v / of_nat (list_sum counts) * 100)) counts
  /\ In row (ct_values p).
Proof.
  cbv zeta. intros Hi.
  pose proof (normalised_values a b) as Hvals. cbv zeta in Hvals.
  set (c := crosstab a b) in *. set (obs := observations a b) in *.
  assert (Hc : ct_values c = map (cells_of obs (ct_columns c)) (ct_index c))
    by reflexivity.
  assert (Hr : In (nth i (ct_index c) "") (ct_index c)) by now apply nth_In.
  pose proof (row_positive a b _ Hr) as Hpos. cbv zeta in Hpos.
  fold c obs in Hpos.
  rewrite Hc, (nth_map_default _ _ i "" [] Hi).
  split; [reflexivity|]. split; [exact Hpos|].
  rewrite Hvals. split.
  - rewrite (nth_map_default _ _ i "" [] Hi).
    apply map_ext. intros v. now rewrite np_div_pos by lia.
  - apply nth_In. now rewrite length_map.
Qed.

(** C5.  In the row-normalised cross-tabulation of travel mode by
    cab-availability issue there is one row of percentages per travel mode
    that occurs; each such row holds at least one observation, each of its
    cells is its count over the row's total times 100, a finite number and
    never not-a-number, and the percentages of the row add up to 100.  No
    row has zero observations. *)
Theorem ct_pct_rows_sum_to_100 (df : DataFrame) (tm ca : Series)
        (Htm : getitem df "Travel Mode" = Ok tm)
        (Hca : getitem df "Cab Availability Issues" = Ok ca) :
  exists c p,
    ct df = Ok c /\ ct_pct df = Ok p
    /\ ct_index p = ct_index c /\ ct_columns p = ct_columns c
    /\ (forall r, In r (ct_index c) <-> In r (map displayed tm))
    /\ (forall k, In k (ct_columns c) <-> In k (map displayed ca))
    /\ grand_total c = total_responses df
    /\ length (ct_values c) = length (ct_index c)
    /\ length (ct_values p) = length (ct_index c)
    /\ Forall (fun n => 1 <= n) (sum_axis1 c)
    /\ Forall (fun row =>
                 Forall (fun v => is_finite v = true /\ is_nan v = false) row
                 /\ exists q, num_sum row = Fin q /\ (q == 100)%Q)
              (ct_values p)
    /\ forall i, i < length (ct_index c) ->
         let counts := nth i (ct_values c) [] in
         let row := nth i (ct_values p) [] in
         length counts = length (ct_columns c)
         /\ (forall j, j < length (ct_columns c) ->
                       nth j counts 0
                       = count_pair (nth i (ct_index c) "")
                                    (nth j (ct_columns c) "")
                                    (combine (map displayed tm)
                                             (map displayed ca)))
         /\ 1 <= list_sum counts
         /\ length row = length (ct_columns c)
         /\ row = map (fun v => Fin (of_nat v / of_nat (list_sum counts) * 100))
                      counts
         /\ Forall (fun v => is_finite v = true /\ is_nan v = false) row
         /\ exists q, num_sum row = Fin q /\ (q == 100)%Q.
Proof.
  pose proof (getitem_length _ _ _ Htm) as Ltm.
  pose proof (getitem_length _ _ _ Hca) as Lca.
  assert (Hlen : length tm = length ca) by congruence.
  destruct (observations_displayed tm ca Hlen) as [Hf [Hs Hl]].
  pose proof (observations_combine tm ca) as Hobs.
  set (a := fillna "(Missing)" tm) in *. set (b := fillna "(Missing)" ca) in *.
  destruct (crosstab_accounts a b) as [Hg [Hrows _]]. cbv zeta in Hg, Hrows.
  destruct (crosstab_normalised a b) as [Hsums Hall]. cbv zeta in Hsums, Hall.
  pose proof (normalised_values a b) as Hvals. cbv zeta in Hvals.
  unfold ct_pct, ct. rewrite Htm, Hca. cbn [bind]. fold a b.
  exists (crosstab a b),
         (mul_scalar (div_axis0 (crosstab a b) (sum_axis1 (crosstab a b))) 100).
  do 4 (split; [reflexivity|]).
  split; [intros r; unfold crosstab; cbn [ct_index]; rewrite Hf; apply labels_In|].
  split; [intros k; unfold crosstab; cbn [ct_columns]; rewrite Hs;
          apply labels_In|].
  split; [unfold total_responses; rewrite Hg, Hl; exact Ltm|].
  split; [exact Hrows|].
  split; [rewrite Hvals; apply length_map|].
  split; [exact Hsums|]. split; [exact Hall|].
  intros i Hi.
  destruct (normalised_row a b i Hi) as [Hcounts [Hpos [Hrow Hin]]].
  cbv zeta in Hcounts, Hpos, Hrow, Hin. cbv zeta.
  rewrite Forall_forall in Hall. destruct (Hall _ Hin) as [Hfin Hsum].
  split; [rewrite Hcounts; apply length_map|].
  split.
  { intros j Hj. rewrite Hcounts. unfold cells_of.
    rewrite (nth_map_default _ _ j "" 0 Hj). now rewrite Hobs. }
  split; [exact Hpos|].
  split; [rewrite Hrow, length_map, Hcounts; apply length_map|].
  split; [exact Hrow|]. split; [exact Hfin | exact Hsum].
Qed.

Lemma ct_pct_rows_sum_to_100_witness :
  exists c p,
    ct four_answers = Ok c /\ ct_pct four_answers = Ok p
    /\ ct_index p = ["Bike"; "Bus"; "Carpool"; "Own Car"]
    /\ ct_values c = [[0; 1]; [1; 0]; [1; 0]; [1; 0]]
    /\ length (ct_values p) = length (ct_index c)
    /\ forall i, i < length (ct_index c) ->
         exists q, num_sum (nth i (ct_values p) []) = Fin q /\ (q == 100)%Q.
Proof.
  destruct (ct_pct_rows_sum_to_100 four_answers
              [Some "Own Car"; Some "Bus"; Some "Bike"; Some "Carpool"]
              [Some "No"; Some "No"; Some "Yes"; Some "No"] eq_refl eq_refl)
    as [c [p [Hc [Hp [Hi [_ [_ [_ [_ [_ [Hlen [_ [_ Hrow]]]]]]]]]]]]].
  exists c, p. injection Hc as <-. injection Hp as <-.
  split; [reflexivity|]. split; [reflexivity|].
  split; [reflexivity|]. split; [reflexivity|].
  split; [exact Hlen|].
  intros i Hlt. exact (proj2 (proj2 (proj2 (proj2 (proj2 (proj2 (Hrow i Hlt))))))).
Defined.

(** *** The traces of the stacked bar chart *)

(** X13.  The stacked bar chart gets one trace per cab-availability
    answer, in column order and named after it, each over all travel modes;
    the value a trace holds at a travel mode is the cell of [ct_pct] for that
    mode and that answer. *)
Theorem fig2_traces_are_columns (df : DataFrame) (tm ca : Series)
        (Htm : getitem df "Travel Mode" = Ok tm)
        (Hca : getitem df "Cab Availability Issues" = Ok ca) :
  exists p traces,
    ct_pct df = Ok p /\ fig2 df = Ok traces
    /\ map trace_name traces = ct_columns p
    /\ Forall (fun t => trace_x t = ct_index p
                        /\ length (trace_y t) = length (ct_index p)) traces
    /\ forall i j, i < length (ct_index p) -> j < length (ct_columns p) ->
                   nth i (trace_y (nth j traces (mkTrace "" [] []))) NaN
                   = nth j (nth i (ct_values p) []) NaN.
Proof.
  unfold fig2, ct_pct, ct. rewrite Htm, Hca. cbn [bind].
  set (a := fillna "(Missing)" tm). set (b := fillna "(Missing)" ca).
  set (p := mul_scalar (div_axis0 (crosstab a b) (sum_axis1 (crosstab a b))) 100).
  assert (Hvals : ct_values p = _) by apply (normalised_values a b).
  cbv zeta in Hvals.
  assert (Hrows : length (ct_values p) = length (ct_index p)).
  { rewrite Hvals. apply length_map. }
  assert (Hnd : NoDup (ct_columns p)) by apply labels_NoDup.
  exists p, (fig2_traces p). do 2 (split; [reflexivity|]).
  split; [|split].
  - unfold fig2_traces. rewrite map_map. cbn [trace_name]. apply map_id.
  - apply Forall_forall. intros t Ht. unfold fig2_traces in Ht.
    apply in_map_iff in Ht as [col [<- Hcol]]. cbn [trace_x trace_y].
    split; [reflexivity|]. unfold ct_getitem.
    destruct (position_present col _ Hcol) as [j ->].
    now rewrite length_map.
  - intros i j Hi Hj. unfold fig2_traces.
    rewrite (nth_map_default _ (ct_columns p) j "" (mkTrace "" [] []) Hj).
    cbn [trace_y]. unfold ct_getitem. rewrite (position_nth _ j Hnd Hj).
    rewrite <- Hrows in Hi.
    exact (nth_map_default (fun row => nth j row NaN) (ct_values p) i [] NaN Hi).
Qed.

Lemma fig2_traces_are_columns_witness :
  exists p traces,
    ct_pct four_answers = Ok p /\ fig2 four_answers = Ok traces
    /\ map trace_name traces = ct_columns p
    /\ Forall (fun t => trace_x t = ct_index p
                        /\ length (trace_y t) = length (ct_index p)) traces
    /\ forall i j, i < length (ct_index p) -> j < length (ct_columns p) ->
                   nth i (trace_y (nth j traces (mkTrace "" [] []))) NaN
                   = nth j (nth i (ct_values p) []) NaN.
Proof.
  exact (fig2_traces_are_columns four_answers
           [Some "Own Car"; Some "Bus"; Some "Bike"; Some "Carpool"]
           [Some "No"; Some "No"; Some "Yes"; Some "No"] eq_refl eq_refl).
Defined.

(** *** Loading *)

(** X14.  Loading strips the header and nothing else: for every frame
    read, each column name of the loaded frame is trimmed and the rows are
    the rows read; and when no two header cells strip to the same name, a
    column is found under its stripped name with the cells it had. *)
Theorem load_data_strips_header (parsed : DataFrame) :
  Forall (fun c => strip c = c) (columns (load_data parsed))
  /\ columns (load_data parsed) = map strip (columns parsed)
  /\ rows (load_data parsed) = rows parsed
  /\ len (load_data parsed) = len parsed
  /\ (NoDup (map strip (columns parsed)) ->
      forall n, In n (columns parsed) ->
                exists cells, getitem parsed n = Ok cells
                              /\ getitem (load_data parsed) (strip n) = Ok cells).
Proof.
  split; [|split; [reflexivity | split; [reflexivity | split; [reflexivity|]]]].
  - unfold load_data. cbn [columns]. apply Forall_forall. intros c Hc.
    apply in_map_iff in Hc as [n [<- _]]. apply strip_idem.
  - intros Hdistinct n Hn. unfold getitem, get, load_data. cbn [columns].
    rewrite (position_map strip n _ Hdistinct Hn).
    destruct (position_present n _ Hn) as [j ->]. cbn [option_map].
    eexists. split; reflexivity.
Qed.

Lemma load_data_strips_header_witness :
  exists cells,
    getitem padded_header " Cab Availability Issues " = Ok cells
    /\ getitem (load_data padded_header) "Cab Availability Issues" = Ok cells.
Proof.
  apply (proj2 (proj2 (proj2 (proj2 (load_data_strips_header padded_header))))
           ltac:(vm_compute; repeat constructor; simpl; intuition discriminate)
           " Cab Availability Issues ").
  simpl. tauto.
Defined.

End TableFacts.
